(** * Payment tracker: the data-access and aggregation layer of [app.py]

    The four functions [get_payments], [add_payment],
    [update_payment_status] and [get_payment_stats] are embedded as
    programs of a small state-and-exception monad over a [World] that
    holds the [payments] table as the connection sees it, the cursor, the
    wall clock, the messages shown by [st.error], and a script of
    injected database faults.  The SQL statements are the string
    literals of the source; the database interprets them.

    The fault script is arbitrary: it can make any call into the driver
    raise, in any pattern, which covers lost connections and a
    transaction left aborted by an earlier error.  Statements that hold
    for every world therefore hold for every such pattern. *)

From stdpp Require Import base numbers strings list sorting gmap.
From Stdlib Require Import ZArith QArith Qcanon Lia.

Local Open Scope string_scope.
Local Open Scope list_scope.
Local Open Scope Z_scope.

(** ** Python values *)

(** The values that cross the database boundary or end up in a result
    dictionary.  Decimals and floats carry the rational they denote
    (binary rounding of [float] is not modelled); a [datetime] is a number
    of microseconds, a [date] a number of days. *)
Inductive value :=
  | VNone
  | VInt (n : Z)
  | VStr (s : string)
  | VDec (q : Qc)
  | VFloat (q : Qc)
  | VTime (t : Z)
  | VDate (d : Z)
  | VDict (m : gmap string Z).

#[export] Instance value_eq_dec : EqDecision value.
Proof. solve_decision. Defined.

Abbreviation pydict := (gmap string value).

(** Truthiness, as used by [x or 0]. *)
Definition py_truthy (v : value) : bool :=
  match v with
  | VNone => false
  | VInt n => negb (Z.eqb n 0)
  | VStr s => negb (String.eqb s "")
  | VDec q | VFloat q => negb (bool_decide (q = 0%Qc))
  | VTime _ | VDate _ => true
  | VDict m => negb (bool_decide (m = ∅))
  end.

Definition py_or (a b : value) : value := if py_truthy a then a else b.

(** [dict(pairs)]: later pairs overwrite earlier ones. *)
Definition py_dict {V} (kvs : list (string * V)) : gmap string V :=
  foldl (λ m kv, <[kv.1 := kv.2]> m) ∅ kvs.

(** ** The payments table *)

(** Modelled from the spec: the declaration of the [payments] table is not
    part of the repository; the columns, their types and their constraints
    are those of the data model (section 3). *)
Record Payment := mkPayment {
  id : Z;
  customer_name : string;
  amount : Qc;
  currency : string;
  status : string;
  payment_method : string;
  created_at : Z;
  updated_at : Z }.

#[export] Instance Payment_eq_dec : EqDecision Payment.
Proof. solve_decision. Defined.

Definition currencies : list string := ["USD"; "EUR"; "GBP"; "JPY"].
Definition statuses : list string :=
  ["pending"; "completed"; "failed"; "refunded"].
Definition payment_methods : list string :=
  ["credit_card"; "debit_card"; "paypal"; "bank_transfer"].

Definition member (s : string) (l : list string) : bool :=
  existsb (String.eqb s) l.

(** Modelled from the spec: the column constraints of section 3. *)
Definition constraints_ok (p : Payment) : bool :=
  negb (String.eqb (customer_name p) "")
  && bool_decide (0 < amount p)%Qc
  && member (currency p) currencies
  && member (status p) statuses
  && member (payment_method p) payment_methods.

(** The table as one connection sees it: its rows in storage order and
    the next value of the [id] sequence.
    Modelled from the spec: [id] is the primary key and is generated by
    the storage. *)
Record Table := mkTable {
  rows : list Payment;
  next_id : Z }.

Definition with_status (s : string) (t : Z) (p : Payment) : Payment :=
  {| id := id p; customer_name := customer_name p; amount := amount p;
     currency := currency p; status := s;
     payment_method := payment_method p;
     created_at := created_at p; updated_at := t |}.

(** ** The world *)

Inductive connection := Connected.

Record World := mkWorld {
  table : Table;
  faults : list (option string);
  clock : nat → Z;
  reads : nat;
  description : list string;
  result_set : option (list (list value));
  sent : list (string * list value);
  errors : list string }.

Definition set_table (t : Table) (w : World) : World :=
  mkWorld t (faults w) (clock w) (reads w) (description w) (result_set w)
          (sent w) (errors w).
Definition set_faults (f : list (option string)) (w : World) : World :=
  mkWorld (table w) f (clock w) (reads w) (description w) (result_set w)
          (sent w) (errors w).
Definition set_reads (n : nat) (w : World) : World :=
  mkWorld (table w) (faults w) (clock w) n (description w) (result_set w)
          (sent w) (errors w).
Definition set_cursor (d : list string) (r : option (list (list value)))
    (w : World) : World :=
  mkWorld (table w) (faults w) (clock w) (reads w) d r (sent w) (errors w).
Definition set_sent (s : list (string * list value)) (w : World) : World :=
  mkWorld (table w) (faults w) (clock w) (reads w) (description w)
          (result_set w) s (errors w).
Definition set_errors (e : list string) (w : World) : World :=
  mkWorld (table w) (faults w) (clock w) (reads w) (description w)
          (result_set w) (sent w) e.

(** ** The monad: state plus Python exceptions *)

Inductive outcome (A : Type) :=
  | Ok (a : A)
  | Raise (e : string).
Arguments Ok {A} a.
Arguments Raise {A} e.

Definition M (A : Type) : Type := World → outcome A * World.

#[export] Instance M_ret : MRet M := λ A a w, (Ok a, w).
#[export] Instance M_bind : MBind M := λ A B f m w,
  match m w with
  | (Ok a, w') => f a w'
  | (Raise e, w') => (Raise e, w')
  end.

Definition raise {A} (e : string) : M A := λ w, (Raise e, w).
Definition get_world : M World := λ w, (Ok w, w).
Definition modify (f : World → World) : M unit := λ w, (Ok tt, f w).

(** [try: body except Exception as e: handler e] *)
Definition try_except {A} (body : M A) (handler : string → M A) : M A :=
  λ w, match body w with
       | (Ok a, w') => (Ok a, w')
       | (Raise e, w') => handler e w'
       end.

(** [st.error(msg)] *)
Definition st_error (msg : string) : M unit :=
  modify (λ w, set_errors (errors w ++ [msg]) w).

(** [datetime.now()]: the next reading of the wall clock. *)
Definition datetime_now : M Z :=
  λ w, (Ok (clock w (reads w)), set_reads (S (reads w)) w).

Definition microseconds_per_day : Z := 86400000000.
Definition microseconds_per_hour : Z := 3600000000.

(** [.date()] of a datetime, and SQL [DATE(ts)]. *)
Definition date_of (t : Z) : Z := t `div` microseconds_per_day.

(** ** The SQL statements of the source, verbatim *)

Definition query_select : string := "
        SELECT id, customer_name, amount, currency, status, payment_method, 
               created_at, updated_at
        FROM payments 
        ORDER BY created_at DESC 
        LIMIT %s
        ".

Definition query_insert : string := "
        INSERT INTO payments (customer_name, amount, currency, status, payment_method, created_at, updated_at)
        VALUES (%s, %s, %s, %s, %s, %s, %s)
        ".

Definition query_update : string := "
        UPDATE payments 
        SET status = %s, updated_at = %s 
        WHERE id = %s
        ".

Definition query_today : string := "
            SELECT COUNT(*), COALESCE(SUM(amount), 0) 
            FROM payments 
            WHERE DATE(created_at) = %s
        ".

Definition query_by_status : string := "
            SELECT status, COUNT(*) 
            FROM payments 
            GROUP BY status
        ".

Definition query_recent : string := "
            SELECT COUNT(*) 
            FROM payments 
            WHERE created_at >= %s
        ".

(** ** The database *)

Inductive statement :=
  | SelectRecent | InsertPayment | UpdateStatus
  | CountToday | CountByStatus | CountRecent.

(** The server recognises the six statements above and rejects any other
    text as a syntax error. *)
Definition parse_sql (q : string) : option statement :=
  if String.eqb q query_select then Some SelectRecent
  else if String.eqb q query_insert then Some InsertPayment
  else if String.eqb q query_update then Some UpdateStatus
  else if String.eqb q query_today then Some CountToday
  else if String.eqb q query_by_status then Some CountByStatus
  else if String.eqb q query_recent then Some CountRecent
  else None.

(** [ORDER BY created_at DESC]: [a] may precede [b]. *)
Definition newer_first (a b : Payment) : Prop := created_at b ≤ created_at a.

#[export] Instance newer_first_dec a b : Decision (newer_first a b).
Proof. unfold newer_first. apply _. Defined.

Definition select_columns : list string :=
  ["id"; "customer_name"; "amount"; "currency"; "status"; "payment_method";
   "created_at"; "updated_at"].

Definition row_values (p : Payment) : list value :=
  [VInt (id p); VStr (customer_name p); VDec (amount p); VStr (currency p);
   VStr (status p); VStr (payment_method p); VTime (created_at p);
   VTime (updated_at p)].

(** [SELECT ... ORDER BY created_at DESC LIMIT n].  Rows with equal
    [created_at] come out in the order the merge sort leaves them; no
    statement below depends on the order among such rows. *)
Definition select_recent (n : Z) (t : Table) : list Payment :=
  take (Z.to_nat n) (merge_sort newer_first (rows t)).

(** [INSERT]: the row gets the next value of the sequence as its [id];
    the primary key rejects an [id] that is already in use. *)
Definition new_row (name : string) (amt : Qc) (cur st pm : string)
    (c u : Z) (t : Table) : Payment :=
  {| id := next_id t; customer_name := name; amount := amt; currency := cur;
     status := st; payment_method := pm; created_at := c; updated_at := u |}.

Definition id_free (i : Z) (t : Table) : bool :=
  forallb (λ p, negb (Z.eqb (id p) i)) (rows t).

Definition insert_row (p : Payment) (t : Table) : Table :=
  {| rows := rows t ++ [p]; next_id := next_id t + 1 |}.

(** [UPDATE ... SET status, updated_at WHERE id = pid] *)
Definition update_row (s : string) (u pid : Z) (p : Payment) : Payment :=
  if Z.eqb (id p) pid then with_status s u p else p.

Definition update_rows (s : string) (u pid : Z) (t : Table) : Table :=
  {| rows := update_row s u pid <$> rows t; next_id := next_id t |}.

(** SQL [SUM] is NULL over no rows; [COALESCE] replaces the NULL. *)
Definition sql_sum (l : list Qc) : option Qc :=
  match l with
  | [] => None
  | _ => Some (foldr Qcplus 0%Qc l)
  end.

Definition coalesce (o : option Qc) (d : Qc) : Qc := default d o.

Definition count_where (P : Payment → bool) (t : Table) : Z :=
  Z.of_nat (length (List.filter P (rows t))).

Definition created_on (d : Z) (p : Payment) : bool :=
  Z.eqb (date_of (created_at p)) d.

Definition created_since (t : Z) (p : Payment) : bool :=
  Z.leb t (created_at p).

Definition has_status (s : string) (p : Payment) : bool :=
  String.eqb (status p) s.

(** [GROUP BY status]: one group per status that occurs. *)
Definition group_by_status (t : Table) : list (string * Z) :=
  (λ s, (s, count_where (has_status s) t))
    <$> remove_dups (status <$> rows t).

(** The text of the exception for a negative [LIMIT]: PostgreSQL's
    message as the driver renders it, with the line feed that ends it. *)
Definition limit_rejected : string :=
  Eval cbv in
    String.append "LIMIT must not be negative"
      (String (Ascii.ascii_of_nat 10) EmptyString).

(** What executing a statement with its bound parameters does to the
    table and to the cursor; a failure is a raised exception and leaves
    the table as it was.  The text of an exception is the server's; the
    other texts below are labels that stand for it, and no statement
    depends on the text of any of them. *)
Definition run_statement (s : statement) (params : list value) : M unit :=
  λ w,
  let t := table w in
  match s, params with
  | SelectRecent, [VInt n] =>
      if Z.ltb n 0 then (Raise limit_rejected, w)
      else (Ok tt, set_cursor select_columns
                     (Some (row_values <$> select_recent n t)) w)
  | InsertPayment,
    [VStr name; VFloat amt; VStr cur; VStr st; VStr pm; VTime c; VTime u] =>
      let p := new_row name amt cur st pm c u t in
      if constraints_ok p && id_free (id p) t
      then (Ok tt, set_cursor [] None (set_table (insert_row p t) w))
      else (Raise "constraint violation", w)
  | UpdateStatus, [VStr st; VTime u; VInt pid] =>
      let t' := update_rows st u pid t in
      if forallb constraints_ok
           (List.filter (λ p, Z.eqb (id p) pid) (rows t'))
      then (Ok tt, set_cursor [] None (set_table t' w))
      else (Raise "constraint violation", w)
  | CountToday, [VDate d] =>
      let today := List.filter (created_on d) (rows t) in
      (Ok tt, set_cursor ["count"; "coalesce"]
                (Some [[VInt (Z.of_nat (length today));
                        VDec (coalesce (sql_sum (amount <$> today)) 0%Qc)]])
                w)
  | CountByStatus, [] =>
      (Ok tt, set_cursor ["status"; "count"]
                (Some ((λ g, [VStr g.1; VInt g.2]) <$> group_by_status t))
                w)
  | CountRecent, [VTime since] =>
      (Ok tt, set_cursor ["count"]
                (Some [[VInt (count_where (created_since since) t)]]) w)
  | _, _ => (Raise "wrong parameters", w)
  end.

(** Every call into the driver first consults the fault script: the next
    entry, when it is [Some e], makes the call raise [e]. *)
Definition db_call : M unit :=
  λ w, match faults w with
       | [] => (Ok tt, w)
       | None :: fs => (Ok tt, set_faults fs w)
       | Some e :: fs => (Raise e, set_faults fs w)
       end.

(** [conn.cursor()] *)
Definition conn_cursor : M unit :=
  db_call;; modify (set_cursor [] None).

(** [cursor.execute(query, params)]: the text and the parameters travel
    separately. *)
Definition cursor_execute (query : string) (params : list value) : M unit :=
  db_call;;
  modify (λ w, set_sent (sent w ++ [(query, params)]) w);;
  match parse_sql query with
  | Some s => run_statement s params
  | None => raise "syntax error"
  end.

(** [cursor.description], reduced to the column names. *)
Definition cursor_description : M (list string) :=
  w ← get_world; mret (description w).

(** [cursor.fetchall()] *)
Definition cursor_fetchall : M (list (list value)) :=
  db_call;;
  w ← get_world;
  match result_set w with
  | Some rs => modify (set_cursor (description w) (Some []));; mret rs
  | None => raise "no results to fetch"
  end.

(** [cursor.fetchone()] *)
Definition cursor_fetchone : M (option (list value)) :=
  db_call;;
  w ← get_world;
  match result_set w with
  | Some [] => mret None
  | Some (r :: rs) =>
      modify (set_cursor (description w) (Some rs));; mret (Some r)
  | None => raise "no results to fetch"
  end.

(** [conn.commit()] makes the connection's writes durable; it does not
    change what the connection itself sees. *)
Definition conn_commit : M unit := db_call.

(** [cursor.close()] *)
Definition cursor_close : M unit :=
  db_call;; modify (set_cursor [] None).

(** ** The repository functions of [app.py] *)

(** [dict(zip(columns, row))] *)
Definition row_dict (columns : list string) (row : list value) : pydict :=
  py_dict (zip columns row).

Definition get_payments_body (limit : Z) : M (list pydict) :=
  conn_cursor;;
  cursor_execute query_select [VInt limit];;
  columns ← cursor_description;
  fetched ← cursor_fetchall;
  let payments := row_dict columns <$> fetched in
  cursor_close;;
  mret payments.

Definition get_payments (conn : option connection) (limit : Z)
    : M (list pydict) :=
  match conn with
  | None => mret []
  | Some _ =>
      try_except (get_payments_body limit)
        (λ e, st_error ("Error fetching payments: " +:+ e);; mret [])
  end.

Definition add_payment_body (customer_name : string) (amount : Qc)
    (currency payment_method : string) : M bool :=
  conn_cursor;;
  now ← datetime_now;
  cursor_execute query_insert
    [VStr customer_name; VFloat amount; VStr currency; VStr "pending";
     VStr payment_method; VTime now; VTime now];;
  conn_commit;;
  cursor_close;;
  mret true.

Definition add_payment (conn : option connection) (customer_name : string)
    (amount : Qc) (currency payment_method : string) : M bool :=
  match conn with
  | None => mret false
  | Some _ =>
      try_except
        (add_payment_body customer_name amount currency payment_method)
        (λ e, st_error ("Error adding payment: " +:+ e);; mret false)
  end.

Definition update_payment_status_body (payment_id : Z) (new_status : string)
    : M bool :=
  conn_cursor;;
  now ← datetime_now;
  cursor_execute query_update [VStr new_status; VTime now; VInt payment_id];;
  conn_commit;;
  cursor_close;;
  mret true.

Definition update_payment_status (conn : option connection)
    (payment_id : Z) (new_status : string) : M bool :=
  match conn with
  | None => mret false
  | Some _ =>
      try_except (update_payment_status_body payment_id new_status)
        (λ e, st_error ("Error updating payment: " +:+ e);; mret false)
  end.

(** [a, b = cursor.fetchone()] *)
Definition unpack2 (r : option (list value)) : M (value * value) :=
  match r with
  | Some [a; b] => mret (a, b)
  | Some _ => raise "ValueError"
  | None => raise "TypeError"
  end.

(** [cursor.fetchone()[0]] *)
Definition index0 (r : option (list value)) : M value :=
  match r with
  | Some (a :: _) => mret a
  | Some [] => raise "IndexError"
  | None => raise "TypeError"
  end.

(** [dict(cursor.fetchall())] for rows of a status and its count. *)
Definition pair_of_row (r : list value) : option (string * Z) :=
  match r with
  | [VStr s; VInt n] => Some (s, n)
  | _ => None
  end.

Definition dict_of_rows (rs : list (list value)) : M (gmap string Z) :=
  match mapM pair_of_row rs with
  | Some kvs => mret (py_dict kvs)
  | None => raise "TypeError"
  end.

(** [float(v)] *)
Definition py_float (v : value) : M value :=
  match v with
  | VInt n => mret (VFloat (Qc_of_Z n))
  | VDec q | VFloat q => mret (VFloat q)
  | _ => raise "TypeError"
  end.

Definition get_payment_stats_body : M pydict :=
  conn_cursor;;
  now ← datetime_now;
  let today := date_of now in
  cursor_execute query_today [VDate today];;
  r ← cursor_fetchone;
  '(today_count, today_total) ← unpack2 r;
  cursor_execute query_by_status [];;
  rs ← cursor_fetchall;
  status_dist ← dict_of_rows rs;
  now' ← datetime_now;
  let one_hour_ago := now' - microseconds_per_hour in
  cursor_execute query_recent [VTime one_hour_ago];;
  r' ← cursor_fetchone;
  recent_count ← index0 r';
  cursor_close;;
  total ← py_float (py_or today_total (VInt 0));
  mret (py_dict
          [("today_count", py_or today_count (VInt 0));
           ("today_total", total);
           ("status_distribution", VDict status_dist);
           ("recent_activity", py_or recent_count (VInt 0))]).

Definition get_payment_stats (conn : option connection) : M pydict :=
  match conn with
  | None => mret ∅
  | Some _ =>
      try_except get_payment_stats_body
        (λ e, st_error ("Error fetching stats: " +:+ e);; mret ∅)
  end.

(** ** The connection *)

(** The keyword arguments of [psycopg2.connect]; a variable that is not
    set in the environment is passed as [None]. *)
Record connect_args := mkArgs {
  arg_host : option string;
  arg_database : option string;
  arg_user : option string;
  arg_password : option string;
  arg_port : string;
  arg_sslmode : string }.

(** [os.getenv(name)] and [os.getenv(name, fallback)] *)
Definition getenv (env : gmap string string) (name : string)
    : option string :=
  env !! name.

Definition getenv_or (env : gmap string string) (name fallback : string)
    : string :=
  default fallback (env !! name).

(** The body of [init_connection].  [psycopg2.connect] is the parameter
    [connect]: it yields a connection or raises.  The memoising decorator
    is not modelled: this is the call that actually runs. *)
Definition init_connection (env : gmap string string)
    (connect : connect_args → outcome connection) : M (option connection) :=
  try_except
    (match connect {| arg_host := getenv env "NEON_HOST";
                      arg_database := getenv env "NEON_DATABASE";
                      arg_user := getenv env "NEON_USER";
                      arg_password := getenv env "NEON_PASSWORD";
                      arg_port := getenv_or env "NEON_PORT" "5432";
                      arg_sslmode := "require" |} with
     | Ok connection => mret (Some connection)
     | Raise e => raise e
     end)
    (λ e, st_error ("Failed to connect to database: " +:+ e);; mret None).

(** ** The page *)

(** What one run of the script puts on the page, apart from the
    [st.error] messages, which stay in the world.  A metric carries the
    number it shows before it is formatted as text, and a table the frame
    that pandas has made of the rows. *)
Inductive element :=
  | Title (s : string)
  | Markdown (s : string)
  | Info (s : string)
  | Code (s : string)
  | Header (s : string)
  | Subheader (s : string)
  | Divider
  | Success (s : string)
  | Metric (label : string) (v : value)
  | BarChart (m : gmap string Z)
  | Dataframe (ps : list pydict).

(** The state of the widgets during one run. *)
Record Inputs := mkInputs {
  auto_refresh_checked : bool;
  refresh_slider : Z;
  name_text : string;
  amount_number : Qc;
  currency_choice : nat;
  method_choice : nat;
  add_submitted : bool;
  payment_choice : nat;
  status_choice : nat;
  update_clicked : bool }.

Record Page := mkPage {
  world : World;
  shown : list element;
  slept : list Z }.

(** A run goes on, is cut short by [st.rerun()], or dies of an uncaught
    exception. *)
Inductive flow (A : Type) :=
  | Next (a : A)
  | Rerun
  | Crash (e : string).
Arguments Next {A} a.
Arguments Rerun {A}.
Arguments Crash {A} e.

Definition P (A : Type) : Type := Page → flow A * Page.

#[export] Instance P_ret : MRet P := λ A a pg, (Next a, pg).
#[export] Instance P_bind : MBind P := λ A B f m pg,
  match m pg with
  | (Next a, pg') => f a pg'
  | (Rerun, pg') => (Rerun, pg')
  | (Crash e, pg') => (Crash e, pg')
  end.

(** A call of one of the functions above from the script. *)
Definition call {A} (m : M A) : P A :=
  λ pg, match m (world pg) with
        | (Ok a, w) => (Next a, mkPage w (shown pg) (slept pg))
        | (Raise e, w) => (Crash e, mkPage w (shown pg) (slept pg))
        end.

Definition show (e : element) : P unit :=
  λ pg, (Next tt, mkPage (world pg) (shown pg ++ [e]) (slept pg)).

Definition crash {A} (e : string) : P A := λ pg, (Crash e, pg).

(** A library call outside any [try]: its exception ends the run. *)
Definition library {A} (o : outcome A) : P A :=
  match o with
  | Ok a => mret a
  | Raise e => crash e
  end.

(** [st.rerun()] *)
Definition st_rerun {A} : P A := λ pg, (Rerun, pg).

(** [time.sleep(seconds)] *)
Definition time_sleep (seconds : Z) : P unit :=
  λ pg, (Next tt, mkPage (world pg) (shown pg) (slept pg ++ [seconds])).

(** [st.selectbox(label, options)]: the option the user picked, the first
    option when nothing valid is picked, [None] when there are no
    options. *)
Definition selectbox {A} (options : list A) (choice : nat) : option A :=
  match options !! choice with
  | Some x => Some x
  | None => head options
  end.

(** [stats.get(key, fallback)] *)
Definition dict_get (d : pydict) (key : string) (fallback : value) : value :=
  default fallback (d !! key).

Definition config_hint : string := "
        NEON_HOST=your-neon-host
        NEON_DATABASE=your-database-name
        NEON_USER=your-username
        NEON_PASSWORD=your-password
        NEON_PORT=5432
        ".

(** The sidebar: the refresh controls and the form that adds a payment.
    It hands on the two refresh settings; the interval is only bound in
    the script when auto refresh is on, and only used then.  The fallback
    of a select box over a literal list is never used: the list is not
    empty. *)
Definition sidebar (conn : option connection) (i : Inputs) : P (bool * Z) :=
  show (Header "Controls");;
  let auto_refresh := auto_refresh_checked i in
  let refresh_interval := refresh_slider i in
  show Divider;;
  show (Subheader "Add New Payment");;
  let customer_name := name_text i in
  let amount := amount_number i in
  let currency := default "" (selectbox currencies (currency_choice i)) in
  let payment_method :=
    default "" (selectbox payment_methods (method_choice i)) in
  (if add_submitted i then
     if negb (String.eqb customer_name "") && bool_decide (0 < amount)%Qc
     then
       added ← call (add_payment conn customer_name amount currency
                       payment_method);
       if added : bool then
         show (Success "Payment added successfully!");; st_rerun
       else call (st_error "Failed to add payment")
     else call (st_error "Please fill in all required fields")
   else mret tt);;
  mret (auto_refresh, refresh_interval).

(** The four metrics and the status chart. *)
Definition statistics (conn : option connection) : P unit :=
  stats ← call (get_payment_stats conn);
  show (Metric "Today's Payments" (dict_get stats "today_count" (VInt 0)));;
  show (Metric "Today's Total" (dict_get stats "today_total" (VInt 0)));;
  show (Metric "Recent Activity (1h)"
          (dict_get stats "recent_activity" (VInt 0)));;
  pending_count ←
    match dict_get stats "status_distribution" (VDict ∅) with
    | VDict m => mret (default 0 (m !! "pending"))
    | _ => crash "AttributeError"
    end;
  show (Metric "Pending Payments" (VInt pending_count));;
  show Divider;;
  (if py_truthy (dict_get stats "status_distribution" VNone) then
     show (Subheader "Payment Status Distribution");;
     match dict_get stats "status_distribution" VNone with
     | VDict m => show (BarChart m)
     | _ => crash "AttributeError"
     end
   else mret tt);;
  show Divider.

(** [[p['id'] for p in payments]] *)
Definition ids_of (payments : list pydict) : option (list value) :=
  mapM (λ p : pydict, p !! "id") payments.

(** The table of recent payments and the quick status update.
    [to_frame] stands for the three pandas steps that come before the
    table is shown: [pd.DataFrame(payments)], the conversion of
    [created_at] through [pd.to_datetime(...).dt.strftime(...)] and the
    formatting of [amount].  They are library code that runs outside any
    [try]: it yields the frame to show or raises, and which of the two is
    left to the library.  The other branches that crash are those where
    Python would go on with a value of another type than the functions
    above take. *)
Definition recent_payments (conn : option connection)
    (to_frame : list pydict → outcome (list pydict)) (i : Inputs)
    : P unit :=
  show (Subheader "Recent Payments");;
  payments ← call (get_payments conn 50);
  match payments with
  | _ :: _ =>
      df ← library (to_frame payments);
      show (Dataframe df);;
      show (Subheader "Quick Status Update");;
      match ids_of payments with
      | None => crash "KeyError"
      | Some ids =>
          let payment_id := selectbox ids (payment_choice i) in
          let new_status :=
            default "" (selectbox statuses (status_choice i)) in
          if update_clicked i then
            match payment_id with
            | Some (VInt pid) =>
                updated ← call (update_payment_status conn pid new_status);
                if updated : bool then
                  show (Success "Status updated successfully!");; st_rerun
                else call (st_error "Failed to update status")
            | _ => crash "TypeError"
            end
          else mret tt
      end
  | [] => show (Info "No payments found. Add some payments to get started!")
  end.

(** [main]: one run of the script. *)
Definition main (env : gmap string string)
    (connect : connect_args → outcome connection)
    (to_frame : list pydict → outcome (list pydict)) (i : Inputs)
    : P unit :=
  show (Title "💳 Payment Tracker");;
  show (Markdown "Real-time payment monitoring and management");;
  conn ← call (init_connection env connect);
  match conn with
  | None =>
      call (st_error
        "Unable to connect to database. Please check your Neon configuration.");;
      show (Info "Make sure to set the following environment variables:");;
      show (Code config_hint)
  | Some _ =>
      '(auto_refresh, refresh_interval) ← sidebar conn i;
      statistics conn;;
      recent_payments conn to_frame i;;
      if auto_refresh : bool then
        time_sleep refresh_interval;; st_rerun
      else mret tt
  end.

(** ** Vocabulary of the statements *)

(** The dictionary [get_payments] builds for a row. *)
Definition payment_dict (p : Payment) : pydict :=
  row_dict select_columns (row_values p).


(** The fault script is only ever consumed from the front. *)
Definition later_faults (w w' : World) : Prop :=
  ∃ k, faults w' = drop k (faults w).

(** None of the next [k] calls into the driver is made to fail. *)
Definition calls_ok (k : nat) (fs : list (option string)) : bool :=
  forallb (λ f, match f with None => true | Some _ => false end) (take k fs).

(** The parameter tuples that go with the [INSERT] and the [UPDATE]. *)
Definition insert_params (name : string) (amt : Qc) (cur pm : string)
    (now : Z) : list value :=
  [VStr name; VFloat amt; VStr cur; VStr "pending"; VStr pm; VTime now;
   VTime now].

Definition update_params (st : string) (now pid : Z) : list value :=
  [VStr st; VTime now; VInt pid].

(** The rows an [UPDATE] has rewritten still satisfy the constraints. *)
Definition update_accepted (pid : Z) (t' : Table) : bool :=
  forallb constraints_ok (List.filter (λ p, Z.eqb (id p) pid) (rows t')).

(** [float(total or 0)] for the decimal that [COALESCE] returns. *)
Definition total_of (q : Qc) : Qc :=
  if bool_decide (q = 0%Qc) then Qc_of_Z 0 else q.

(** The record that [get_payment_stats] builds from the table and the two
    clock readings it takes. *)
Definition stats_of (t : Table) (now now' : Z) : pydict :=
  let today := List.filter (created_on (date_of now)) (rows t) in
  py_dict
    [("today_count", py_or (VInt (Z.of_nat (length today))) (VInt 0));
     ("today_total",
      VFloat (total_of (coalesce (sql_sum (amount <$> today)) 0%Qc)));
     ("status_distribution", VDict (py_dict (group_by_status t)));
     ("recent_activity",
      py_or (VInt (count_where
                     (created_since (now' - microseconds_per_hour)) t))
            (VInt 0))].

(** The three statements of [get_payment_stats] with their parameters. *)
Definition stats_queries (now now' : Z) : list (string * list value) :=
  [(query_today, [VDate (date_of now)]);
   (query_by_status, []);
   (query_recent, [VTime (now' - microseconds_per_hour)])].

(** Running [m] from [w] ends in an outcome and a world that satisfy [Q]. *)
Definition post {A} (m : M A) (w : World)
    (Q : outcome A → World → Prop) : Prop :=
  Q (m w).1 (m w).2.

(** Sample data. *)
Definition bob : Payment :=
  mkPayment 1 "Bob" (Qc_of_Z 10) "USD" "completed" "paypal" 100 200.

(** A connection that sees one payment created at time 100, while the
    local clock reads 50. *)
Definition behind_world : World :=
  mkWorld (mkTable [bob] 2) [] (λ _, 50) 0 [] None [] [].

(** The inputs the form lets through: the preconditions of [insert]. *)
Definition valid_input (name : string) (amt : Qc) (cur pm : string) : Prop :=
  name ≠ "" ∧ (0 < amt)%Qc
  ∧ member cur currencies = true ∧ member pm payment_methods = true.

Definition alice_amount : Qc := Q2Qc (4999 # 100).

(** A fresh table and a clock that reads 100 at every reading. *)
Definition still_world : World :=
  mkWorld (mkTable [] 1) [] (λ _, 100) 0 [] None [] [].

(** The keys of a complete statistics record. *)
Definition stats_keys : gset string :=
  {[ "today_count"; "today_total"; "status_distribution";
     "recent_activity" ]}.

(** The shape shared by the four functions: no connection gives the
    fallback at once; otherwise the body runs under [try] and an
    exception is turned into a message and the fallback. *)
Definition guarded {A} (conn : option connection) (body : M A)
    (prefix : string) (fallback : A) : M A :=
  match conn with
  | None => mret fallback
  | Some _ =>
      try_except body (λ e, st_error (prefix +:+ e);; mret fallback)
  end.

(** The query texts submitted so far. *)
Definition texts (w : World) : list string := (sent w).*1.

(** How many statements a function with a single [execute] submits: one
    when there is a connection and neither [cursor()] nor [execute]
    itself fails, none otherwise. *)
Definition submitted (conn : option connection) (w : World) : nat :=
  match conn with
  | Some _ => if calls_ok 2 (faults w) then 1 else 0
  | None => 0
  end.

(** A call from the page to one of the four functions. *)
Inductive operation :=
  | OpList (limit : Z)
  | OpInsert (name : string) (amt : Qc) (cur pm : string)
  | OpUpdate (pid : Z) (st : string)
  | OpStats.

(** The world after one call from the page; the page uses the returned
    value for display only. *)
Definition run_operation (conn : option connection) (o : operation)
    (w : World) : World :=
  match o with
  | OpList limit => (get_payments conn limit w).2
  | OpInsert name amt cur pm => (add_payment conn name amt cur pm w).2
  | OpUpdate pid st => (update_payment_status conn pid st w).2
  | OpStats => (get_payment_stats conn w).2
  end.

Definition run_operations (conn : option connection) (os : list operation)
    (w : World) : World :=
  foldl (λ w o, run_operation conn o w) w os.

(** The clock does not go backwards. *)
Definition clock_monotone (w : World) : Prop :=
  ∀ i j, (i ≤ j)%nat → clock w i ≤ clock w j.

(** The invariant of the data model: [updated_at >= created_at]. *)
Definition timestamps_ordered (t : Table) : Prop :=
  ∀ p, p ∈ rows t → created_at p ≤ updated_at p.

(** No row carries a time later than the next clock reading. *)
Definition not_from_future (w : World) : Prop :=
  ∀ p, p ∈ rows (table w) → updated_at p ≤ clock w (reads w).

(** An empty table and a clock that advances by one at every reading. *)
Definition ticking_world : World :=
  mkWorld (mkTable [] 1) [] (λ n, Z.of_nat n) 0 [] None [] [].

(** The sum of the counts of a histogram. *)
Definition dict_total (m : gmap string Z) : Z :=
  foldr (λ kv acc, kv.2 + acc) 0 (map_to_list m).

(** The columns of a row that no operation rewrites. *)
Definition identity_of (p : Payment)
    : Z * string * Qc * string * string * Z :=
  (id p, customer_name p, amount p, currency p, payment_method p,
   created_at p).

(** Ids are distinct and all below the next value of the sequence. *)
Definition ids_fresh (t : Table) : Prop :=
  NoDup (id <$> rows t) ∧ ∀ p, p ∈ rows t → id p < next_id t.

(** The elements the sidebar always shows. *)
Definition sidebar_elements : list element :=
  [Header "Controls"; Divider; Subheader "Add New Payment"].

(** The form lets the input through: [customer_name and amount > 0]. *)
Definition form_accepts (i : Inputs) : bool :=
  negb (String.eqb (name_text i) "")
  && bool_decide (0 < amount_number i)%Qc.

(** A statement the page may submit while the table is [t]: one of the
    read-only queries, an [INSERT] of a valid payment, or an [UPDATE] to
    a valid status of the id of a row of [t]. *)
Definition page_statement (t : Table) (s : string * list value) : Prop :=
  (∃ now now', s ∈ stats_queries now now')
  ∨ s = (query_select, [VInt 50])
  ∨ (∃ name amt cur pm now,
       valid_input name amt cur pm
       ∧ s = (query_insert, insert_params name amt cur pm now))
  ∨ (∃ st now pid,
       member st statuses = true
       ∧ (∃ p, p ∈ rows t ∧ id p = pid)
       ∧ s = (query_update, update_params st now pid)).

(** What the statistics block shows for a statistics record [d]. *)
Definition pending_of (d : pydict) : Z :=
  match dict_get d "status_distribution" (VDict ∅) with
  | VDict m => default 0 (m !! "pending")
  | _ => 0
  end.

Definition chart_of (d : pydict) : list element :=
  match d !! "status_distribution" with
  | Some (VDict m) =>
      if bool_decide (m = ∅) then []
      else [Subheader "Payment Status Distribution"; BarChart m]
  | _ => []
  end.

Definition stats_panel (d : pydict) : list element :=
  [Metric "Today's Payments" (dict_get d "today_count" (VInt 0));
   Metric "Today's Total" (dict_get d "today_total" (VInt 0));
   Metric "Recent Activity (1h)" (dict_get d "recent_activity" (VInt 0));
   Metric "Pending Payments" (VInt (pending_of d));
   Divider]
  ++ chart_of d ++ [Divider].

(** What the block of recent payments shows above the update buttons. *)
Definition recent_elements (ps : list pydict) : list element :=
  [Subheader "Recent Payments"; Dataframe ps;
   Subheader "Quick Status Update"].

(** The arguments [init_connection] hands to the driver. *)
Definition args_of (env : gmap string string) : connect_args :=
  {| arg_host := getenv env "NEON_HOST";
     arg_database := getenv env "NEON_DATABASE";
     arg_user := getenv env "NEON_USER";
     arg_password := getenv env "NEON_PASSWORD";
     arg_port := getenv_or env "NEON_PORT" "5432";
     arg_sslmode := "require" |}.

(** Every id of [t] is still an id of [t']. *)
Definition ids_kept (t t' : Table) : Prop :=
  ∀ p, p ∈ rows t → ∃ p', p' ∈ rows t' ∧ id p' = id p.

(** Between two worlds only statements the page may submit were sent,
    and no id disappeared. *)
Definition writes_checked (w w' : World) : Prop :=
  ids_kept (table w) (table w')
  ∧ ∃ new, sent w' = sent w ++ new
           ∧ Forall (page_statement (table w')) new.


(** Sample states of the widgets: a complete form that is submitted, a
    page on which nothing is pressed, and a submitted form without a
    customer name. *)
Definition alice_form : Inputs :=
  mkInputs true 10 "Alice" alice_amount 0 0 true 0 0 false.


Definition blank_form : Inputs :=
  mkInputs false 10 "" alice_amount 0 0 true 0 0 false.

(** The pandas steps raise [e] on a listing of rows of [t]. *)
Definition formatting_fails (to_frame : list pydict → outcome (list pydict))
    (t : Table) (e : string) : Prop :=
  ∃ sel, sel ≠ [] ∧ (∀ p, p ∈ sel → p ∈ rows t)
         ∧ to_frame (payment_dict <$> sel) = Raise e.

(** A pandas that shows the rows as they are and never raises. *)
Definition as_listed : list pydict → outcome (list pydict) := Ok.

(** From [w] to [w'] no message was lost, the table kept its number of
    rows, and no [INSERT] was submitted. *)
Definition quiet (w w' : World) : Prop :=
  errors w `prefix_of` errors w'
  ∧ length (rows (table w')) = length (rows (table w))
  ∧ ∃ new, sent w' = sent w ++ new
           ∧ Forall (λ s, s.1 ≠ query_insert) new.

(** The elements at the top of the page, and the hint shown when there is
    no connection. *)
Definition page_top : list element :=
  [Title "💳 Payment Tracker";
   Markdown "Real-time payment monitoring and management"].

Definition hint_elements : list element :=
  [Info "Make sure to set the following environment variables:";
   Code config_hint].

(** ** Ordering and limiting *)

#[export] Instance newer_first_total : Total newer_first.
Proof. intros a b. unfold newer_first. lia. Qed.

#[export] Instance newer_first_trans : Transitive newer_first.
Proof. intros a b c. unfold newer_first. lia. Qed.

Lemma select_recent_sorted n t : StronglySorted newer_first (select_recent n t).
Proof.
  unfold select_recent.
  pose proof (StronglySorted_merge_sort newer_first (rows t)) as Hs.
  rewrite <- (take_drop (Z.to_nat n)) in Hs.
  by apply StronglySorted_app_1_l in Hs.
Qed.

Lemma select_recent_length n t :
  0 ≤ n → Z.of_nat (length (select_recent n t)) ≤ n.
Proof. intros Hn. unfold select_recent. rewrite length_take. lia. Qed.

Lemma select_recent_elem p n t : p ∈ select_recent n t → p ∈ rows t.
Proof.
  unfold select_recent. intros Hp.
  apply (subseteq_take (Z.to_nat n)) in Hp.
  by rewrite merge_sort_Permutation in Hp.
Qed.

Lemma select_recent_all n t :
  Z.of_nat (length (rows t)) ≤ n → select_recent n t ≡ₚ rows t.
Proof.
  intros Hn. unfold select_recent. rewrite take_ge.
  - apply merge_sort_Permutation.
  - rewrite (Permutation_length (merge_sort_Permutation _ _)). lia.
Qed.

(** The selection is the newest part of the table: what is left out is
    no newer than anything selected. *)
Lemma select_recent_split n t :
  ∃ rest,
    select_recent n t ++ rest ≡ₚ rows t
    ∧ ∀ p q, p ∈ select_recent n t → q ∈ rest →
             created_at q ≤ created_at p.
Proof.
  unfold select_recent.
  exists (drop (Z.to_nat n) (merge_sort newer_first (rows t))). split.
  - rewrite take_drop. apply merge_sort_Permutation.
  - intros p q Hp Hq.
    pose proof (StronglySorted_merge_sort newer_first (rows t)) as Hs.
    rewrite <- (take_drop (Z.to_nat n)) in Hs.
    exact (StronglySorted_app_1_elem_of _ _ _ p q Hs Hp Hq).
Qed.

Lemma select_recent_count n t :
  0 ≤ n →
  Z.of_nat (length (select_recent n t))
  = Z.min n (Z.of_nat (length (rows t))).
Proof.
  intros Hn. unfold select_recent. rewrite length_take.
  rewrite (Permutation_length (merge_sort_Permutation _ _)). lia.
Qed.

Lemma select_recent_nil n t : rows t = [] → select_recent n t = [].
Proof. unfold select_recent. intros ->. by destruct (Z.to_nat n). Qed.

Lemma strongly_sorted_adjacent {A} (R : relation A) (l : list A) i a b :
  StronglySorted R l → l !! i = Some a → l !! S i = Some b → R a b.
Proof.
  intros Hs. revert i. induction Hs as [|x l Hs IH Hx]; intros i Ha Hb.
  - done.
  - destruct i as [|i]; simpl in *.
    + injection Ha as <-. rewrite Forall_forall in Hx.
      apply Hx. by eapply list_elem_of_lookup_2.
    + by eapply IH.
Qed.


(** ** Result dictionaries *)

Lemma payment_dict_id p : payment_dict p !! "id" = Some (VInt (id p)).
Proof. reflexivity. Qed.
Lemma payment_dict_status p :
  payment_dict p !! "status" = Some (VStr (status p)).
Proof. reflexivity. Qed.
Lemma payment_dict_created_at p :
  payment_dict p !! "created_at" = Some (VTime (created_at p)).
Proof. reflexivity. Qed.
Lemma payment_dict_updated_at p :
  payment_dict p !! "updated_at" = Some (VTime (updated_at p)).
Proof. reflexivity. Qed.

(** ** Runs of the function bodies *)



Lemma calls_ok_le j k fs :
  (j ≤ k)%nat → calls_ok k fs = true → calls_ok j fs = true.
Proof.
  unfold calls_ok. rewrite !forallb_forall. intros Hjk H f Hf. apply H.
  apply list_elem_of_In. apply list_elem_of_In in Hf.
  replace (take j fs) with (take j (take k fs)) in Hf
    by (rewrite take_take; f_equal; lia).
  by apply (subseteq_take j).
Qed.

Arguments select_recent : simpl never.
Arguments row_dict : simpl never.
Arguments group_by_status : simpl never.
Arguments constraints_ok : simpl never.
Arguments id_free : simpl never.
Arguments py_dict : simpl never.
Arguments date_of : simpl never.
Arguments String.append : simpl never.
Arguments insert_row : simpl never.
Arguments update_rows : simpl never.
Arguments new_row : simpl never.
Arguments count_where : simpl never.

Lemma parse_select : parse_sql query_select = Some SelectRecent.
Proof. reflexivity. Qed.
Lemma parse_insert : parse_sql query_insert = Some InsertPayment.
Proof. reflexivity. Qed.
Lemma parse_update : parse_sql query_update = Some UpdateStatus.
Proof. reflexivity. Qed.
Lemma parse_today : parse_sql query_today = Some CountToday.
Proof. reflexivity. Qed.
Lemma parse_by_status : parse_sql query_by_status = Some CountByStatus.
Proof. reflexivity. Qed.
Lemma parse_recent : parse_sql query_recent = Some CountRecent.
Proof. reflexivity. Qed.

Ltac unfold_prims :=
  unfold conn_cursor, conn_commit, cursor_close, cursor_fetchall,
    cursor_fetchone, cursor_description, datetime_now, st_error,
    try_except, db_call, modify, get_world, raise, mbind, mret, M_bind,
    M_ret in *.

Ltac run1 :=
  match goal with
  | |- context [match ?f with [] => _ | _ :: _ => _ end] =>
      is_var f; destruct f as [|[?|] ?]
  | |- context [if ?b then _ else _] => destruct b eqn:?
  end.

Ltac run := unfold_prims; cbn; repeat (run1; cbn).

Ltac solve_later :=
  first [ by exists 0%nat | by exists 1%nat | by exists 2%nat
        | by exists 3%nat | by exists 4%nat | by exists 5%nat
        | by exists 6%nat | by exists 7%nat | by exists 8%nat ].

Lemma get_payments_body_spec limit w :
  let q := (query_select, [VInt limit]) in
  let '(o, w') := get_payments_body limit w in
  table w' = table w ∧ clock w' = clock w ∧ reads w' = reads w
  ∧ errors w' = errors w ∧ later_faults w w'
  ∧ sent w' = sent w ++ (if calls_ok 2 (faults w) then [q] else [])
  ∧ match o with
    | Ok ps =>
        0 ≤ limit ∧ calls_ok 4 (faults w) = true
        ∧ ps = payment_dict <$> select_recent limit (table w)
    | Raise e => limit < 0 ∨ calls_ok 4 (faults w) = false
    end.
Proof.
  unfold get_payments_body, cursor_execute. rewrite parse_select.
  destruct w as [t f c r d rs s e]. unfold later_faults.
  run; repeat split; try done; try lia; try solve_later;
    rewrite <- ?list_fmap_compose, ?app_nil_r; try done;
    try (left; lia); auto.
Qed.

Lemma add_payment_body_spec name amt cur pm w :
  let now := clock w (reads w) in
  let p := new_row name amt cur "pending" pm now now (table w) in
  let accepted := constraints_ok p && id_free (id p) (table w) in
  let q := (query_insert, insert_params name amt cur pm now) in
  let '(o, w') := add_payment_body name amt cur pm w in
  clock w' = clock w ∧ errors w' = errors w ∧ later_faults w w'
  ∧ (reads w ≤ reads w' ≤ S (reads w))%nat
  ∧ sent w' = sent w ++ (if calls_ok 2 (faults w) then [q] else [])
  ∧ (table w' = table w
     ∨ accepted = true ∧ table w' = insert_row p (table w))
  ∧ match o with
    | Ok b =>
        b = true ∧ accepted = true ∧ calls_ok 4 (faults w) = true
        ∧ table w' = insert_row p (table w) ∧ reads w' = S (reads w)
    | Raise e => accepted = false ∨ calls_ok 4 (faults w) = false
    end.
Proof.
  unfold add_payment_body, cursor_execute, insert_params.
  rewrite parse_insert.
  destruct w as [t f c r d rs s e]. unfold later_faults.
  run; repeat split; try done; try lia; try solve_later;
    rewrite ?app_nil_r; auto.
Qed.

Lemma update_payment_status_body_spec pid st w :
  let now := clock w (reads w) in
  let t' := update_rows st now pid (table w) in
  let accepted := update_accepted pid t' in
  let q := (query_update, update_params st now pid) in
  let '(o, w') := update_payment_status_body pid st w in
  clock w' = clock w ∧ errors w' = errors w ∧ later_faults w w'
  ∧ (reads w ≤ reads w' ≤ S (reads w))%nat
  ∧ sent w' = sent w ++ (if calls_ok 2 (faults w) then [q] else [])
  ∧ (table w' = table w ∨ accepted = true ∧ table w' = t')
  ∧ match o with
    | Ok b =>
        b = true ∧ accepted = true ∧ calls_ok 4 (faults w) = true
        ∧ table w' = t' ∧ reads w' = S (reads w)
    | Raise e => accepted = false ∨ calls_ok 4 (faults w) = false
    end.
Proof.
  unfold update_payment_status_body, cursor_execute, update_params,
    update_accepted.
  rewrite parse_update.
  destruct w as [t f c r d rs s e]. unfold later_faults.
  run; repeat split; try done; try lia; try solve_later;
    rewrite ?app_nil_r; auto.
Qed.

Lemma py_float_total q :
  py_float (py_or (VDec q) (VInt 0)) = mret (VFloat (total_of q)).
Proof.
  unfold py_or, total_of. simpl. by destruct (bool_decide (q = 0%Qc)).
Qed.

Lemma dict_of_rows_groups (l : list (string * Z)) :
  dict_of_rows ((λ g, [VStr g.1; VInt g.2]) <$> l) = mret (py_dict l).
Proof.
  unfold dict_of_rows.
  assert (mapM pair_of_row ((λ g, [VStr g.1; VInt g.2]) <$> l) = Some l)
    as ->; [|done].
  apply mapM_Some. induction l as [|[s n] l IH]; constructor; done.
Qed.

Arguments py_or : simpl never.
Arguments py_float : simpl never.
Arguments dict_of_rows : simpl never.
Arguments total_of : simpl never.

(** *** Stepping through a run

    The rules below execute one construct at a time and leave the rest of
    the program untouched. *)

Lemma post_bind {A B} (m : M A) (k : A → M B) w Q :
  post m w (λ o w', match o with
                    | Ok a => post (k a) w' Q
                    | Raise e => Q (Raise e) w'
                    end) →
  post (m ≫= k) w Q.
Proof. unfold post, mbind, M_bind. by destruct (m w) as [[a|e] w']. Qed.

Lemma post_ret {A} (a : A) w Q : Q (Ok a) w → post (mret a) w Q.
Proof. done. Qed.

Lemma post_raise {A} e w (Q : outcome A → World → Prop) :
  Q (Raise e) w → post (raise e) w Q.
Proof. done. Qed.

Lemma post_modify f w Q : Q (Ok tt) (f w) → post (modify f) w Q.
Proof. done. Qed.

Lemma post_get_world w Q : Q (Ok w) w → post get_world w Q.
Proof. done. Qed.

Lemma post_now w Q :
  Q (Ok (clock w (reads w))) (set_reads (S (reads w)) w) →
  post datetime_now w Q.
Proof. done. Qed.

Lemma post_db_call w Q :
  match faults w with
  | [] => Q (Ok tt) w
  | None :: fs => Q (Ok tt) (set_faults fs w)
  | Some e :: fs => Q (Raise e) (set_faults fs w)
  end →
  post db_call w Q.
Proof. unfold post, db_call. by destruct (faults w) as [|[e|] fs]. Qed.

Lemma post_execute q s ps w Q :
  parse_sql q = Some s →
  post (db_call;;
        modify (λ w, set_sent (sent w ++ [(q, ps)]) w);;
        run_statement s ps) w Q →
  post (cursor_execute q ps) w Q.
Proof. unfold cursor_execute. by intros ->. Qed.

Lemma post_eval {A} (m : M A) w o w' Q :
  m w = (o, w') → Q o w' → post m w Q.
Proof. unfold post. by intros ->. Qed.

Ltac step :=
  lazymatch goal with
  | |- post (_ ≫= _) _ _ => apply post_bind
  | |- post (mret _) _ _ => apply post_ret
  | |- post (raise _) _ _ => apply post_raise
  | |- post (modify _) _ _ => apply post_modify
  | |- post get_world _ _ => apply post_get_world
  | |- post datetime_now _ _ => apply post_now
  | |- post db_call _ _ => apply post_db_call
  | |- post conn_cursor _ _ => unfold conn_cursor at 1
  | |- post conn_commit _ _ => unfold conn_commit at 1
  | |- post cursor_close _ _ => unfold cursor_close at 1
  | |- post cursor_description _ _ => unfold cursor_description at 1
  | |- post cursor_fetchall _ _ => unfold cursor_fetchall at 1
  | |- post cursor_fetchone _ _ => unfold cursor_fetchone at 1
  | |- post (cursor_execute _ _) _ _ =>
      eapply post_execute; [reflexivity|]
  | |- post (run_statement _ _) _ _ =>
      eapply post_eval; [reflexivity|]
  | |- post (unpack2 _) _ _ => eapply post_eval; [reflexivity|]
  | |- post (index0 _) _ _ => eapply post_eval; [reflexivity|]
  | |- post (dict_of_rows _) _ _ => rewrite dict_of_rows_groups
  | |- post (py_float _) _ _ => rewrite py_float_total
  | |- match ?f with [] => _ | _ :: _ => _ end =>
      is_var f; destruct f as [|[?|] ?]
  end;
  cbn [table faults clock reads description result_set sent errors
       set_table set_faults set_reads set_cursor set_sent set_errors];
  cbv beta iota.

Ltac solve_prefix_at k :=
  solve [exists k; cbn; rewrite <- ?app_assoc, ?app_nil_r; reflexivity].

Ltac solve_prefix :=
  first [ solve_prefix_at 0%nat | solve_prefix_at 1%nat
        | solve_prefix_at 2%nat | solve_prefix_at 3%nat ].

Lemma get_payment_stats_body_spec w :
  let now := clock w (reads w) in
  let now' := clock w (S (reads w)) in
  let '(o, w') := get_payment_stats_body w in
  table w' = table w ∧ clock w' = clock w ∧ errors w' = errors w
  ∧ later_faults w w' ∧ (reads w ≤ reads w')%nat
  ∧ match o with
    | Ok d =>
        d = stats_of (table w) now now' ∧ calls_ok 8 (faults w) = true
        ∧ sent w' = sent w ++ stats_queries now now'
    | Raise e =>
        calls_ok 8 (faults w) = false
        ∧ ∃ k, sent w' = sent w ++ take k (stats_queries now now')
    end.
Proof.
  destruct w as [t f c r d rs s e]. intros now now'.
  enough (post get_payment_stats_body (mkWorld t f c r d rs s e)
            (λ o w', table w' = t ∧ clock w' = c ∧ errors w' = e
              ∧ later_faults (mkWorld t f c r d rs s e) w'
              ∧ (r ≤ reads w')%nat
              ∧ match o with
                | Ok dd => dd = stats_of t now now'
                           ∧ calls_ok 8 f = true
                           ∧ sent w' = s ++ stats_queries now now'
                | Raise _ =>
                    calls_ok 8 f = false
                    ∧ ∃ k, sent w' = s ++ take k (stats_queries now now')
                end)) as H.
  { unfold post in H.
    by destruct (get_payment_stats_body _) as [o w']. }
  unfold get_payment_stats_body, later_faults, stats_queries, stats_of.
  subst now now'. cbn [clock reads].
  repeat step.
  all: repeat split.
  all: try solve_later.
  all: try solve_prefix.
  all: try lia.
  all: rewrite <- ?app_assoc; reflexivity.
Qed.

(** ** The guarded functions *)

Lemma try_except_run {A} (body : M A) (prefix : string) (fallback : A) w :
  try_except body (λ e, st_error (prefix +:+ e);; mret fallback) w =
  match body w with
  | (Ok a, w') => (Ok a, w')
  | (Raise e, w') =>
      (Ok fallback, set_errors (errors w' ++ [prefix +:+ e]) w')
  end.
Proof. unfold try_except. by destruct (body w) as [[a|e] w']. Qed.

Lemma get_payments_ok c limit w :
  0 ≤ limit → calls_ok 4 (faults w) = true →
  ∃ w', get_payments (Some c) limit w
        = (Ok (payment_dict <$> select_recent limit (table w)), w')
        ∧ table w' = table w.
Proof.
  intros Hl Hf. unfold get_payments. rewrite try_except_run.
  pose proof (get_payments_body_spec limit w) as H. cbv zeta in H.
  destruct (get_payments_body limit w) as [[ps|e] w'].
  - destruct H as (? & _ & _ & _ & _ & _ & _ & _ & ->). eauto.
  - destruct H as (_ & _ & _ & _ & _ & _ & [?|?]); [lia|congruence].
Qed.

Lemma get_payments_rows conn limit w ps w' :
  get_payments conn limit w = (Ok ps, w') →
  ∃ sel, ps = payment_dict <$> sel ∧ ∀ p, p ∈ sel → p ∈ rows (table w).
Proof.
  unfold get_payments. destruct conn as [c|].
  - rewrite try_except_run.
    pose proof (get_payments_body_spec limit w) as H. cbv zeta in H.
    destruct (get_payments_body limit w) as [[ps'|e] w''].
    + destruct H as (_ & _ & _ & _ & _ & _ & _ & _ & ->).
      intros [= <- <-]. eexists; split; [done|].
      intros p. apply select_recent_elem.
    + intros [= <- <-]. exists []. split; [done|]. by intros p ?%elem_of_nil.
  - intros [= <- <-]. exists []. split; [done|]. by intros p ?%elem_of_nil.
Qed.

(** ** Listing *)

(** C1: for a positive [limit] and any table, [get_payments] returns, and
    never raises, a list of at most [limit] row dictionaries in which
    every element's [created_at] is at least that of the element after
    it; the list is empty when there is no connection and when the table
    has no rows.  The dictionaries are those of rows of the table; when
    there is a connection and no driver call fails, they are those of the
    [limit] newest rows: [min limit (number of rows)] of them, and no row
    left out is newer than a row returned. *)
Theorem get_payments_capped_and_newest_first conn limit w :
  0 < limit →
  ∃ ps w',
    get_payments conn limit w = (Ok ps, w')
    ∧ Z.of_nat (length ps) ≤ limit
    ∧ (∀ i d1 d2,
         ps !! i = Some d1 → ps !! S i = Some d2 →
         ∃ t1 t2, d1 !! "created_at" = Some (VTime t1)
                  ∧ d2 !! "created_at" = Some (VTime t2) ∧ t2 ≤ t1)
    ∧ (conn = None → ps = [])
    ∧ (rows (table w) = [] → ps = [])
    ∧ ∃ sel,
        ps = payment_dict <$> sel
        ∧ (∀ p, p ∈ sel → p ∈ rows (table w))
        ∧ (conn ≠ None → calls_ok 4 (faults w) = true →
           Z.of_nat (length ps)
           = Z.min limit (Z.of_nat (length (rows (table w))))
           ∧ ∃ rest,
               sel ++ rest ≡ₚ rows (table w)
               ∧ ∀ p q, p ∈ sel → q ∈ rest →
                        created_at q ≤ created_at p).
Proof.
  intros Hl. unfold get_payments. destruct conn as [c|].
  2: { exists [], w. split; [done|]. split; [simpl; lia|]. split.
       { intros i d1 d2 Hi. by rewrite lookup_nil in Hi. }
       split; [done|]. split; [done|]. exists []. split; [done|].
       split; [by intros p ?%elem_of_nil|]. by intros []. }
  rewrite try_except_run.
  pose proof (get_payments_body_spec limit w) as H. cbv zeta in H.
  destruct (get_payments_body limit w) as [[ps|e] w'].
  - destruct H as (_ & _ & _ & _ & _ & _ & Hn & _ & ->).
    eexists _, _. split; [done|]. split; [|split; [|split; [|split]]].
    + rewrite length_fmap. by apply select_recent_length.
    + intros i d1 d2. rewrite !list_lookup_fmap.
      destruct (select_recent limit (table w) !! i) as [p1|] eqn:E1; [|done].
      destruct (select_recent limit (table w) !! S i) as [p2|] eqn:E2;
        [|done].
      intros [= <-] [= <-]. exists (created_at p1), (created_at p2).
      split; [apply payment_dict_created_at|].
      split; [apply payment_dict_created_at|].
      exact (strongly_sorted_adjacent newer_first _ i p1 p2
               (select_recent_sorted limit (table w)) E1 E2).
    + done.
    + intros Hr. by rewrite select_recent_nil.
    + exists (select_recent limit (table w)). split; [done|].
      split; [intros p; apply select_recent_elem|].
      intros _ _. split.
      * rewrite length_fmap. by apply select_recent_count.
      * apply select_recent_split.
  - destruct H as (_ & _ & _ & _ & _ & _ & Hfail).
    eexists _, _. split; [done|]. split; [simpl; lia|]. split.
    { intros i d1 d2 Hi. by rewrite lookup_nil in Hi. }
    split; [done|]. split; [done|]. exists []. split; [done|].
    split; [by intros p ?%elem_of_nil|].
    intros _ Hk. destruct Hfail; [lia|congruence].
Qed.

Lemma get_payments_capped_and_newest_first_witness :
  ∃ ps w',
    get_payments (Some Connected) 1 behind_world = (Ok ps, w')
    ∧ Z.of_nat (length ps) ≤ 1
    ∧ (∀ i d1 d2,
         ps !! i = Some d1 → ps !! S i = Some d2 →
         ∃ t1 t2, d1 !! "created_at" = Some (VTime t1)
                  ∧ d2 !! "created_at" = Some (VTime t2) ∧ t2 ≤ t1)
    ∧ (Some Connected = None → ps = [])
    ∧ (rows (table behind_world) = [] → ps = [])
    ∧ ∃ sel,
        ps = payment_dict <$> sel
        ∧ (∀ p, p ∈ sel → p ∈ rows (table behind_world))
        ∧ (Some Connected ≠ None →
           calls_ok 4 (faults behind_world) = true →
           Z.of_nat (length ps)
           = Z.min 1 (Z.of_nat (length (rows (table behind_world))))
           ∧ ∃ rest,
               sel ++ rest ≡ₚ rows (table behind_world)
               ∧ ∀ p q, p ∈ sel → q ∈ rest →
                        created_at q ≤ created_at p).
Proof.
  apply (get_payments_capped_and_newest_first (Some Connected) 1
           behind_world).
  lia.
Defined.

(** ** Inserting *)

Lemma valid_input_constraints name amt cur pm c u t :
  valid_input name amt cur pm →
  constraints_ok (new_row name amt cur "pending" pm c u t) = true.
Proof.
  intros (Hn & Ha & Hc & Hp). unfold constraints_ok, new_row.
  cbn [customer_name amount currency status payment_method].
  rewrite Hc, Hp, (bool_decide_eq_true_2 _ Ha).
  destruct (String.eqb_spec name ""); [done|reflexivity].
Qed.

Lemma add_payment_spec conn name amt cur pm w :
  let now := clock w (reads w) in
  let p := new_row name amt cur "pending" pm now now (table w) in
  let accepted := constraints_ok p && id_free (id p) (table w) in
  let q := (query_insert, insert_params name amt cur pm now) in
  ∃ b w1,
    add_payment conn name amt cur pm w = (Ok b, w1)
    ∧ clock w1 = clock w ∧ later_faults w w1
    ∧ (reads w ≤ reads w1 ≤ S (reads w))%nat
    ∧ (table w1 = table w
       ∨ accepted = true ∧ table w1 = insert_row p (table w))
    ∧ (b = true ↔
       conn ≠ None ∧ calls_ok 4 (faults w) = true ∧ accepted = true)
    ∧ (b = true →
       table w1 = insert_row p (table w) ∧ reads w1 = S (reads w)
       ∧ sent w1 = sent w ++ [q]).
Proof.
  intros now p accepted q. unfold add_payment. destruct conn as [c|].
  2: { exists false, w. repeat split; try done; try lia; [by exists 0%nat|auto|..].
       all: by intros []. }
  rewrite try_except_run.
  pose proof (add_payment_body_spec name amt cur pm w) as H. cbv zeta in H.
  fold now p accepted q in H.
  destruct (add_payment_body name amt cur pm w) as [[b|e] w1].
  - destruct H as (Hc & _ & Hl & Hr & Hs & Ht & -> & Ha & Hk & Ht' & Hr').
    exists true, w1. rewrite (calls_ok_le 2 4 _ ltac:(lia) Hk) in Hs.
    repeat split; auto; lia.
  - destruct H as (Hc & _ & Hl & Hr & Hs & Ht & Hfail).
    eexists false, _. split; [done|]. cbn [clock reads table sent set_errors].
    repeat split; auto; try lia; try done.
    intros (_ & ? & ?). destruct Hfail; congruence.
Qed.


Lemma insert_row_rows p t : rows (insert_row p t) = rows t ++ [p].
Proof. done. Qed.





(** ** Updating a status *)

Lemma update_payment_status_spec conn pid st w :
  let now := clock w (reads w) in
  let t' := update_rows st now pid (table w) in
  let accepted := update_accepted pid t' in
  let q := (query_update, update_params st now pid) in
  ∃ b w1,
    update_payment_status conn pid st w = (Ok b, w1)
    ∧ clock w1 = clock w ∧ later_faults w w1
    ∧ (reads w ≤ reads w1 ≤ S (reads w))%nat
    ∧ (table w1 = table w ∨ accepted = true ∧ table w1 = t')
    ∧ (b = true ↔
       conn ≠ None ∧ calls_ok 4 (faults w) = true ∧ accepted = true)
    ∧ (b = true →
       table w1 = t' ∧ reads w1 = S (reads w) ∧ sent w1 = sent w ++ [q]).
Proof.
  intros now t' accepted q. unfold update_payment_status.
  destruct conn as [c|].
  2: { exists false, w.
       repeat split; try done; try lia; [by exists 0%nat|auto|..].
       all: by intros []. }
  rewrite try_except_run.
  pose proof (update_payment_status_body_spec pid st w) as H.
  cbv zeta in H. fold now t' accepted q in H.
  destruct (update_payment_status_body pid st w) as [[b|e] w1].
  - destruct H as (Hc & _ & Hl & Hr & Hs & Ht & -> & Ha & Hk & Ht' & Hr').
    exists true, w1. rewrite (calls_ok_le 2 4 _ ltac:(lia) Hk) in Hs.
    repeat split; auto; lia.
  - destruct H as (Hc & _ & Hl & Hr & Hs & Ht & Hfail).
    eexists false, _. split; [done|]. cbn [clock reads table sent set_errors].
    repeat split; auto; try lia; try done.
    intros (_ & ? & ?). destruct Hfail; congruence.
Qed.

Lemma update_row_id st u pid p : id (update_row st u pid p) = id p.
Proof. unfold update_row. by destruct (Z.eqb (id p) pid). Qed.

Lemma update_row_hit st u pid p :
  id p = pid → update_row st u pid p = with_status st u p.
Proof. intros <-. unfold update_row. by rewrite Z.eqb_refl. Qed.

Lemma update_row_miss st u pid p : id p ≠ pid → update_row st u pid p = p.
Proof.
  intros H. unfold update_row. by destruct (Z.eqb_spec (id p) pid).
Qed.

Lemma update_rows_rows st u pid t :
  rows (update_rows st u pid t) = update_row st u pid <$> rows t.
Proof. done. Qed.

Lemma update_rows_missing st u pid t :
  (∀ p, p ∈ rows t → id p ≠ pid) → update_rows st u pid t = t.
Proof.
  intros H. destruct t as [l n]. unfold update_rows. simpl in *. f_equal.
  induction l as [|p l IH]; [done|]. simpl. f_equal.
  - apply update_row_miss, H. left.
  - apply IH. intros q Hq. apply H. by right.
Qed.

Lemma with_status_constraints st u p :
  member st statuses = true → constraints_ok p = true →
  constraints_ok (with_status st u p) = true.
Proof.
  unfold constraints_ok, with_status.
  cbn [customer_name amount currency status payment_method].
  intros ->. rewrite !andb_true_iff. tauto.
Qed.

Lemma update_accepted_iff st u pid t :
  update_accepted pid (update_rows st u pid t) = true ↔
  ∀ p, p ∈ rows t → id p = pid → constraints_ok (with_status st u p) = true.
Proof.
  unfold update_accepted. rewrite forallb_forall, update_rows_rows. split.
  - intros H p Hp Hid. rewrite <- (update_row_hit st u pid p Hid). apply H.
    apply filter_In. split.
    + apply list_elem_of_In. by apply list_elem_of_fmap_2.
    + rewrite update_row_id. by apply Z.eqb_eq.
  - intros H x [Hx Hid]%filter_In.
    apply list_elem_of_In, list_elem_of_fmap in Hx as (p & -> & Hp).
    rewrite update_row_id in Hid. apply Z.eqb_eq in Hid.
    rewrite (update_row_hit _ _ _ _ Hid). by apply H.
Qed.

(** C3, as amended: for a valid new status, over rows that satisfy the
    column constraints and when none of the four driver calls fails,
    [update_payment_status] returns true after one [UPDATE] keyed by id;
    every row with that id then has the new status and has [updated_at]
    equal to the clock reading the call took, also when re-fetched with
    [get_payments].  So [updated_at] exceeds its prior value exactly when
    that reading is later than the prior value. *)
Theorem update_then_refetch c pid st w :
  member st statuses = true →
  Forall (λ p, constraints_ok p = true) (rows (table w)) →
  calls_ok 4 (faults w) = true →
  let now := clock w (reads w) in
  ∃ w1,
    update_payment_status (Some c) pid st w = (Ok true, w1)
    ∧ sent w1 = sent w ++ [(query_update, update_params st now pid)]
    ∧ (∀ p, p ∈ rows (table w) → id p = pid →
         with_status st now p ∈ rows (table w1)
         ∧ (updated_at p < updated_at (with_status st now p)
            ↔ updated_at p < now))
    ∧ (∀ q, q ∈ rows (table w1) → id q = pid →
         status q = st ∧ updated_at q = now)
    ∧ (∀ limit ps w2 d,
         get_payments (Some c) limit w1 = (Ok ps, w2) →
         d ∈ ps → d !! "id" = Some (VInt pid) →
         d !! "status" = Some (VStr st)
         ∧ d !! "updated_at" = Some (VTime now))
    ∧ (∀ limit,
         Z.of_nat (length (rows (table w))) ≤ limit →
         calls_ok 4 (faults w1) = true →
         (∃ p, p ∈ rows (table w) ∧ id p = pid) →
         ∃ ps w2 d, get_payments (Some c) limit w1 = (Ok ps, w2)
                    ∧ d ∈ ps ∧ d !! "id" = Some (VInt pid)).
Proof.
  intros Hst Hrows Hcalls now.
  destruct (update_payment_status_spec (Some c) pid st w)
    as (b & w1 & Hrun & _ & _ & _ & _ & Hb & Hupd).
  fold now in Hb, Hupd.
  assert (b = true) as ->.
  { apply Hb. split; [done|]. split; [done|]. apply update_accepted_iff.
    intros p Hp _. apply with_status_constraints; [done|].
    rewrite Forall_forall in Hrows. by apply Hrows. }
  destruct (Hupd eq_refl) as (Ht & _ & Hs).
  assert (∀ q, q ∈ rows (table w1) → id q = pid →
            status q = st ∧ updated_at q = now) as Hnew.
  { intros q. rewrite Ht, update_rows_rows.
    intros (p & -> & Hp)%list_elem_of_fmap. rewrite update_row_id.
    intros Hid. by rewrite (update_row_hit _ _ _ _ Hid). }
  exists w1. split; [done|]. split; [done|]. split; [|split; [done|split]].
  - intros p Hp Hid. split; [|done].
    rewrite Ht, update_rows_rows, <- (update_row_hit st now pid p Hid).
    by apply list_elem_of_fmap_2.
  - intros limit ps w2 d Hget Hd Hdid.
    destruct (get_payments_rows _ _ _ _ _ Hget) as (sel & -> & Hsel).
    apply list_elem_of_fmap in Hd as (q & -> & Hq).
    rewrite payment_dict_id in Hdid. injection Hdid as Hid.
    destruct (Hnew q (Hsel q Hq) Hid) as [<- <-].
    by rewrite payment_dict_status, payment_dict_updated_at.
  - intros limit Hlim Hcalls1 (p & Hp & Hid).
    destruct (get_payments_ok c limit w1) as (w2 & Hget & _); [lia|done|].
    eexists _, w2, (payment_dict (with_status st now p)).
    split; [exact Hget|]. split.
    + apply list_elem_of_fmap_2. rewrite select_recent_all.
      * rewrite Ht, update_rows_rows, <- (update_row_hit st now pid p Hid).
        by apply list_elem_of_fmap_2.
      * rewrite Ht, update_rows_rows, length_fmap. lia.
    + rewrite payment_dict_id. simpl. by rewrite Hid.
Qed.

Lemma update_then_refetch_witness :
  let now := clock behind_world (reads behind_world) in
  ∃ w1,
    update_payment_status (Some Connected) 1 "refunded" behind_world
    = (Ok true, w1)
    ∧ sent w1 = sent behind_world
                ++ [(query_update, update_params "refunded" now 1)]
    ∧ (∀ p, p ∈ rows (table behind_world) → id p = 1 →
         with_status "refunded" now p ∈ rows (table w1)
         ∧ (updated_at p < updated_at (with_status "refunded" now p)
            ↔ updated_at p < now))
    ∧ (∀ q, q ∈ rows (table w1) → id q = 1 →
         status q = "refunded" ∧ updated_at q = now)
    ∧ (∀ limit ps w2 d,
         get_payments (Some Connected) limit w1 = (Ok ps, w2) →
         d ∈ ps → d !! "id" = Some (VInt 1) →
         d !! "status" = Some (VStr "refunded")
         ∧ d !! "updated_at" = Some (VTime now))
    ∧ (∀ limit,
         Z.of_nat (length (rows (table behind_world))) ≤ limit →
         calls_ok 4 (faults w1) = true →
         (∃ p, p ∈ rows (table behind_world) ∧ id p = 1) →
         ∃ ps w2 d, get_payments (Some Connected) limit w1 = (Ok ps, w2)
                    ∧ d ∈ ps ∧ d !! "id" = Some (VInt 1)).
Proof.
  apply (update_then_refetch Connected 1 "refunded" behind_world).
  - reflexivity.
  - repeat constructor.
  - reflexivity.
Defined.

(** C3, as stated, fails: a payment is inserted and then updated while
    the clock reads 100 both times; the update succeeds and the status
    changes, but [updated_at] stays 100 and is not greater than before. *)
Lemma update_within_one_clock_reading :
  let r1 := add_payment (Some Connected) "Alice" alice_amount "USD"
              "credit_card" still_world in
  let r2 := update_payment_status (Some Connected) 1 "completed" r1.2 in
  let r3 := get_payments (Some Connected) 50 r2.2 in
  let before := mkPayment 1 "Alice" alice_amount "USD" "pending"
                  "credit_card" 100 100 in
  let after := mkPayment 1 "Alice" alice_amount "USD" "completed"
                 "credit_card" 100 100 in
  r1.1 = Ok true ∧ rows (table r1.2) = [before]
  ∧ r2.1 = Ok true ∧ r3.1 = Ok [payment_dict after]
  ∧ payment_dict after !! "status" = Some (VStr "completed")
  ∧ payment_dict after !! "updated_at" = Some (VTime 100)
  ∧ ¬ updated_at before < updated_at after.
Proof.
  repeat split; try (vm_compute; reflexivity).
  simpl. lia.
Qed.

(** C4, as amended: when no row has the given id, [update_payment_status]
    leaves the table as it was and still returns true, unless there is no
    connection or one of its four driver calls fails; the number of rows
    the [UPDATE] touched is never examined. *)
Theorem update_of_missing_id conn pid st w :
  (∀ p, p ∈ rows (table w) → id p ≠ pid) →
  ∃ b w1,
    update_payment_status conn pid st w = (Ok b, w1)
    ∧ (b = true ↔ conn ≠ None ∧ calls_ok 4 (faults w) = true)
    ∧ table w1 = table w.
Proof.
  intros Hmiss.
  destruct (update_payment_status_spec conn pid st w)
    as (b & w1 & Hrun & _ & _ & _ & Ht & Hb & _).
  rewrite (update_rows_missing _ _ _ _ Hmiss) in Ht, Hb.
  assert (update_accepted pid (table w) = true) as Hacc.
  { rewrite <- (update_rows_missing st 0 pid (table w) Hmiss).
    apply update_accepted_iff. intros p Hp Hid. by destruct (Hmiss p Hp). }
  rewrite Hacc in Hb. exists b, w1. split; [done|]. split.
  - rewrite Hb. tauto.
  - by destruct Ht as [?|[_ ?]].
Qed.

Lemma update_of_missing_id_witness :
  ∃ b w1,
    update_payment_status (Some Connected) 7 "completed" behind_world
    = (Ok b, w1)
    ∧ (b = true ↔
       Some Connected ≠ None ∧ calls_ok 4 (faults behind_world) = true)
    ∧ table w1 = table behind_world.
Proof.
  apply (update_of_missing_id (Some Connected) 7 "completed" behind_world).
  intros p Hp%list_elem_of_singleton. subst p. simpl. lia.
Defined.

(** C4, as stated, fails: no payment has id 7, the status is valid, and
    the call returns true. *)
Lemma missing_id_reported_as_updated :
  (∀ p, p ∈ rows (table behind_world) → id p ≠ 7)
  ∧ member "completed" statuses = true
  ∧ (update_payment_status (Some Connected) 7 "completed" behind_world).1
    = Ok true
  ∧ (update_payment_status (Some Connected) 7 "completed" behind_world).1
    ≠ Ok false.
Proof.
  split.
  { intros p Hp%list_elem_of_singleton. subst p. simpl. lia. }
  split; [reflexivity|]. split; [vm_compute; reflexivity|].
  vm_compute. discriminate.
Qed.

(** C7: whatever the outcome, [update_payment_status] keeps the number and
    order of the rows and the id sequence; a row whose id differs from the
    given one is unchanged, and a row with that id keeps its id, customer
    name, amount, currency, payment method and [created_at].  With unique
    ids at most one row changes. *)
Theorem update_touches_status_and_updated_at_only conn pid st w :
  let t := table w in
  let t' := table (update_payment_status conn pid st w).2 in
  next_id t' = next_id t
  ∧ length (rows t') = length (rows t)
  ∧ (∀ i p, rows t !! i = Some p →
       ∃ p', rows t' !! i = Some p'
             ∧ id p' = id p ∧ customer_name p' = customer_name p
             ∧ amount p' = amount p ∧ currency p' = currency p
             ∧ payment_method p' = payment_method p
             ∧ created_at p' = created_at p
             ∧ (id p ≠ pid → p' = p))
  ∧ (NoDup (id <$> rows t) →
     ∀ i j p q, rows t !! i = Some p → rows t !! j = Some q →
                rows t' !! i ≠ Some p → rows t' !! j ≠ Some q → i = j).
Proof.
  intros t t'.
  destruct (update_payment_status_spec conn pid st w)
    as (b & w1 & Hrun & _ & _ & _ & Ht & _).
  subst t'. rewrite Hrun. cbn [snd]. fold t in Ht.
  assert (∀ i p, rows t !! i = Some p →
            ∃ p', rows (table w1) !! i = Some p'
                  ∧ (p' = p ∨ id p = pid
                              ∧ p' = with_status st
                                       (clock w (reads w)) p)) as Hrow.
  { intros i p Hi. destruct Ht as [->|[_ ->]]; [eauto|].
    rewrite update_rows_rows, list_lookup_fmap, Hi. simpl.
    eexists. split; [done|].
    destruct (decide (id p = pid)) as [Hid|Hid].
    - right. split; [done|]. by apply update_row_hit.
    - left. by apply update_row_miss. }
  split; [by destruct Ht as [->|[_ ->]]|].
  split.
  { destruct Ht as [->|[_ ->]]; [done|].
    by rewrite update_rows_rows, length_fmap. }
  split.
  - intros i p Hi. destruct (Hrow i p Hi) as (p' & Hi' & [->|[Hid ->]]).
    + exists p. by repeat split.
    + eexists. split; [exact Hi'|]. by repeat split.
  - intros Hnd i j p q Hi Hj Hi' Hj'.
    destruct (Hrow i p Hi) as (p' & Hpi & [->|[Hidp _]]); [done|].
    destruct (Hrow j q Hj) as (q' & Hqj & [->|[Hidq _]]); [done|].
    apply (NoDup_lookup _ i j pid Hnd).
    + by rewrite list_lookup_fmap, Hi; simpl; rewrite Hidp.
    + by rewrite list_lookup_fmap, Hj; simpl; rewrite Hidq.
Qed.

(** ** Statistics *)

Lemma get_payment_stats_spec conn w :
  let now := clock w (reads w) in
  let now' := clock w (S (reads w)) in
  ∃ d w',
    get_payment_stats conn w = (Ok d, w')
    ∧ table w' = table w ∧ clock w' = clock w ∧ later_faults w w'
    ∧ (reads w ≤ reads w')%nat
    ∧ (conn ≠ None ∧ calls_ok 8 (faults w) = true
       ∧ d = stats_of (table w) now now'
       ∨ (conn = None ∨ calls_ok 8 (faults w) = false) ∧ d = ∅)
    ∧ ∃ k, sent w' = sent w ++ take k (stats_queries now now').
Proof.
  intros now now'. unfold get_payment_stats. destruct conn as [c|].
  2: { exists ∅, w. repeat split; try done; [by exists 0%nat|auto|].
       exists 0%nat. by rewrite take_0, app_nil_r. }
  rewrite try_except_run.
  pose proof (get_payment_stats_body_spec w) as H. cbv zeta in H.
  fold now now' in H.
  destruct (get_payment_stats_body w) as [[d|e] w1].
  - destruct H as (Ht & Hc & _ & Hl & Hr & -> & Hk & Hs).
    eexists _, w1. repeat split; try done; [left; by repeat split|].
    exists 3%nat. by rewrite Hs.
  - destruct H as (Ht & Hc & _ & Hl & Hr & Hk & Hs).
    eexists ∅, _. split; [done|]. cbn [clock reads table sent set_errors].
    repeat split; auto.
Qed.

Lemma stats_of_dom t now now' : dom (stats_of t now now') = stats_keys.
Proof.
  unfold stats_of, py_dict, stats_keys. cbn [foldl fst snd].
  rewrite !dom_insert_L, dom_empty_L. set_solver.
Qed.

Lemma stats_of_nonempty t now now' : stats_of t now now' ≠ ∅.
Proof.
  intros H. pose proof (stats_of_dom t now now') as Hd.
  rewrite H, dom_empty_L in Hd. unfold stats_keys in Hd. set_solver.
Qed.

(** C10: [get_payment_stats] never raises, and its result is either the
    empty dictionary or a dictionary with exactly the keys [today_count],
    [today_total], [status_distribution] and [recent_activity]; it is
    empty exactly when there is no connection or one of its eight driver
    calls fails. *)
Theorem get_payment_stats_all_or_nothing conn w :
  ∃ d w',
    get_payment_stats conn w = (Ok d, w')
    ∧ (d = ∅ ∨ dom d = stats_keys)
    ∧ (d = ∅ ↔ conn = None ∨ calls_ok 8 (faults w) = false).
Proof.
  destruct (get_payment_stats_spec conn w)
    as (d & w' & Hrun & _ & _ & _ & _ & Hd & _).
  exists d, w'. split; [done|].
  destruct Hd as [(Hc & Hk & ->)|[Hfail ->]].
  - split; [right; apply stats_of_dom|]. split.
    + intros H. by apply stats_of_nonempty in H.
    + intros [?|?]; congruence.
  - split; [by left|]. done.
Qed.

Lemma py_dict_reverse {V} (l : list (string * V)) :
  py_dict l = list_to_map (reverse l).
Proof.
  unfold py_dict. induction l as [|[k v] l IH] using rev_ind; [done|].
  by rewrite foldl_snoc, reverse_snoc, list_to_map_cons, IH.
Qed.

Lemma group_by_status_keys t :
  (group_by_status t).*1 = remove_dups (status <$> rows t).
Proof.
  unfold group_by_status. rewrite <- list_fmap_compose.
  apply list_fmap_id.
Qed.

Lemma count_where_positive s t :
  s ∈ status <$> rows t → 0 < count_where (has_status s) t.
Proof.
  intros (p & -> & Hp)%list_elem_of_fmap. unfold count_where.
  assert (In p (List.filter (has_status (status p)) (rows t))) as Hin.
  { apply filter_In. split; [by apply list_elem_of_In|].
    unfold has_status. apply String.eqb_refl. }
  destruct (List.filter _ _); [done|]. simpl. lia.
Qed.

(** The histogram has an entry exactly for the statuses that occur, and
    the entry is the number of rows with that status. *)
Lemma status_distribution_lookup t s :
  py_dict (group_by_status t) !! s
  = if bool_decide (s ∈ status <$> rows t)
    then Some (count_where (has_status s) t) else None.
Proof.
  rewrite py_dict_reverse. case_bool_decide as Hs.
  - apply elem_of_list_to_map_1.
    + rewrite fmap_reverse, group_by_status_keys, reverse_Permutation.
      apply NoDup_remove_dups.
    + apply elem_of_reverse. unfold group_by_status.
      apply (list_elem_of_fmap_2 (λ s, (s, count_where (has_status s) t))).
      by apply elem_of_remove_dups.
  - apply not_elem_of_list_to_map_1.
    rewrite fmap_reverse, group_by_status_keys, elem_of_reverse.
    by rewrite elem_of_remove_dups.
Qed.

Lemma stats_of_lookups t now now' :
  let today := List.filter (created_on (date_of now)) (rows t) in
  stats_of t now now' !! "today_count"
  = Some (py_or (VInt (Z.of_nat (length today))) (VInt 0))
  ∧ stats_of t now now' !! "today_total"
    = Some (VFloat (total_of (coalesce (sql_sum (amount <$> today)) 0%Qc)))
  ∧ stats_of t now now' !! "status_distribution"
    = Some (VDict (py_dict (group_by_status t)))
  ∧ stats_of t now now' !! "recent_activity"
    = Some (py_or (VInt (count_where
                           (created_since (now' - microseconds_per_hour)) t))
                  (VInt 0)).
Proof. repeat split. Qed.

Lemma total_of_zero : total_of 0%Qc = 0%Qc.
Proof. by apply Qc_is_canon. Qed.

(** C6: with a connection whose eight driver calls succeed,
    [get_payment_stats] returns a record whose [status_distribution] has
    an entry exactly for the statuses that occur in the table, each a
    positive row count, and whose [today_total] is a number, 0.0 when no
    row was created today.  On an empty table the record is
    [today_count = 0], [today_total = 0.0], [status_distribution = {}],
    [recent_activity = 0]. *)
Theorem get_payment_stats_figures c w :
  calls_ok 8 (faults w) = true →
  let t := table w in
  let today := date_of (clock w (reads w)) in
  ∃ d w' m total,
    get_payment_stats (Some c) w = (Ok d, w')
    ∧ d !! "status_distribution" = Some (VDict m)
    ∧ (∀ s, m !! s = if bool_decide (s ∈ status <$> rows t)
                     then Some (count_where (has_status s) t) else None)
    ∧ (∀ s n, m !! s = Some n → 0 < n)
    ∧ d !! "today_total" = Some (VFloat total)
    ∧ (List.filter (created_on today) (rows t) = [] → total = 0%Qc)
    ∧ (rows t = [] →
       d !! "today_count" = Some (VInt 0)
       ∧ d !! "today_total" = Some (VFloat 0%Qc)
       ∧ d !! "status_distribution" = Some (VDict ∅)
       ∧ d !! "recent_activity" = Some (VInt 0)).
Proof.
  intros Hk t today. subst t today.
  destruct (get_payment_stats_spec (Some c) w)
    as (d & w' & Hrun & _ & _ & _ & _ & Hd & _).
  destruct Hd as [(_ & _ & ->)|[[?|?] _]]; [|done|congruence].
  destruct (stats_of_lookups (table w) (clock w (reads w))
              (clock w (S (reads w)))) as (Hc & Ht & Hs & Hr).
  eexists _, w', _, _. split; [exact Hrun|].
  split; [exact Hs|]. split; [apply status_distribution_lookup|].
  split.
  { intros s n. rewrite status_distribution_lookup.
    case_bool_decide as Hin; [|done]. intros [= <-].
    by apply count_where_positive. }
  split; [exact Ht|]. split.
  { intros ->. apply total_of_zero. }
  intros Hempty. rewrite Hc, Ht, Hs, Hr. unfold count_where.
  rewrite Hempty. split; [done|].
  split; [do 2 f_equal; apply total_of_zero|]. split; [|done].
  unfold group_by_status. by rewrite Hempty.
Qed.

Lemma get_payment_stats_figures_witness :
  let t := table still_world in
  let today := date_of (clock still_world (reads still_world)) in
  ∃ d w' m total,
    get_payment_stats (Some Connected) still_world = (Ok d, w')
    ∧ d !! "status_distribution" = Some (VDict m)
    ∧ (∀ s, m !! s = if bool_decide (s ∈ status <$> rows t)
                     then Some (count_where (has_status s) t) else None)
    ∧ (∀ s n, m !! s = Some n → 0 < n)
    ∧ d !! "today_total" = Some (VFloat total)
    ∧ (List.filter (created_on today) (rows t) = [] → total = 0%Qc)
    ∧ (rows t = [] →
       d !! "today_count" = Some (VInt 0)
       ∧ d !! "today_total" = Some (VFloat 0%Qc)
       ∧ d !! "status_distribution" = Some (VDict ∅)
       ∧ d !! "recent_activity" = Some (VInt 0)).
Proof.
  apply (get_payment_stats_figures Connected still_world). reflexivity.
Defined.

(** ** Failures *)

Lemma guarded_run {A} conn (body : M A) prefix fallback w :
  ∃ v w',
    guarded conn body prefix fallback w = (Ok v, w')
    ∧ (conn = None → v = fallback ∧ w' = w)
    ∧ (∀ e w1, conn ≠ None → body w = (Raise e, w1) →
         v = fallback
         ∧ w' = set_errors (errors w1 ++ [prefix +:+ e]) w1)
    ∧ (v = fallback ∨ body w = (Ok v, w')).
Proof.
  unfold guarded. destruct conn as [c|].
  - rewrite try_except_run. destruct (body w) as [[a|e] w1].
    + exists a, w1. split; [done|]. split; [done|]. split; [done|].
      by right.
    + eexists _, _. split; [done|]. split; [done|]. split; [|by left].
      by intros e' w2 _ [= <- <-].
  - exists fallback, w. split; [done|]. split; [done|]. split; [done|].
    by left.
Qed.

(** C5: none of the four functions ever raises.  Each returns its
    fallback (the empty list, false, false, the empty dictionary) when
    there is no connection, leaving the world untouched, and when any of
    the driver calls it makes fails; an exception raised inside the
    function is caught there and becomes one [st.error] message together
    with the fallback. *)
Theorem failures_become_fallbacks conn limit name amt cur pm pid st w :
  (∃ v w',
     get_payments conn limit w = (Ok v, w')
     ∧ (conn = None → v = [] ∧ w' = w)
     ∧ (calls_ok 4 (faults w) = false → v = [])
     ∧ (∀ e w1, conn ≠ None → get_payments_body limit w = (Raise e, w1) →
          v = []
          ∧ w' = set_errors
                   (errors w1 ++ ["Error fetching payments: " +:+ e]) w1))
  ∧ (∃ v w',
       add_payment conn name amt cur pm w = (Ok v, w')
       ∧ (conn = None → v = false ∧ w' = w)
       ∧ (calls_ok 4 (faults w) = false → v = false)
       ∧ (∀ e w1, conn ≠ None →
            add_payment_body name amt cur pm w = (Raise e, w1) →
            v = false
            ∧ w' = set_errors
                     (errors w1 ++ ["Error adding payment: " +:+ e]) w1))
  ∧ (∃ v w',
       update_payment_status conn pid st w = (Ok v, w')
       ∧ (conn = None → v = false ∧ w' = w)
       ∧ (calls_ok 4 (faults w) = false → v = false)
       ∧ (∀ e w1, conn ≠ None →
            update_payment_status_body pid st w = (Raise e, w1) →
            v = false
            ∧ w' = set_errors
                     (errors w1 ++ ["Error updating payment: " +:+ e]) w1))
  ∧ (∃ v w',
       get_payment_stats conn w = (Ok v, w')
       ∧ (conn = None → v = ∅ ∧ w' = w)
       ∧ (calls_ok 8 (faults w) = false → v = ∅)
       ∧ (∀ e w1, conn ≠ None → get_payment_stats_body w = (Raise e, w1) →
            v = ∅
            ∧ w' = set_errors
                     (errors w1 ++ ["Error fetching stats: " +:+ e]) w1)).
Proof.
  repeat split.
  - destruct (guarded_run conn (get_payments_body limit)
                "Error fetching payments: " [] w)
      as (v & w' & Hrun & Hnone & Hexc & Hv).
    exists v, w'. repeat split; try done; try (by apply Hnone);
      try (by eapply Hexc).
    intros Hk. destruct Hv as [?|Hbody]; [done|].
    pose proof (get_payments_body_spec limit w) as H. cbv zeta in H.
    rewrite Hbody in H. destruct H as (_&_&_&_&_&_&_&?&_). congruence.
  - destruct (guarded_run conn (add_payment_body name amt cur pm)
                "Error adding payment: " false w)
      as (v & w' & Hrun & Hnone & Hexc & Hv).
    exists v, w'. repeat split; try done; try (by apply Hnone);
      try (by eapply Hexc).
    intros Hk. destruct Hv as [?|Hbody]; [done|].
    pose proof (add_payment_body_spec name amt cur pm w) as H.
    cbv zeta in H. rewrite Hbody in H.
    destruct H as (_&_&_&_&_&_&_&_&?&_). congruence.
  - destruct (guarded_run conn (update_payment_status_body pid st)
                "Error updating payment: " false w)
      as (v & w' & Hrun & Hnone & Hexc & Hv).
    exists v, w'. repeat split; try done; try (by apply Hnone);
      try (by eapply Hexc).
    intros Hk. destruct Hv as [?|Hbody]; [done|].
    pose proof (update_payment_status_body_spec pid st w) as H.
    cbv zeta in H. rewrite Hbody in H.
    destruct H as (_&_&_&_&_&_&_&_&?&_). congruence.
  - destruct (guarded_run conn get_payment_stats_body
                "Error fetching stats: " ∅ w)
      as (v & w' & Hrun & Hnone & Hexc & Hv).
    exists v, w'. repeat split; try done; try (by apply Hnone);
      try (by eapply Hexc).
    intros Hk. destruct Hv as [?|Hbody]; [done|].
    pose proof (get_payment_stats_body_spec w) as H. cbv zeta in H.
    rewrite Hbody in H. destruct H as (_&_&_&_&_&_&?&_). congruence.
Qed.

(** ** What is sent to the database *)

Lemma get_payments_sent conn limit w :
  sent (get_payments conn limit w).2
  = sent w ++ take (submitted conn w) [(query_select, [VInt limit])].
Proof.
  unfold get_payments, submitted. destruct conn as [c|].
  2: { simpl. by rewrite app_nil_r. }
  rewrite try_except_run.
  pose proof (get_payments_body_spec limit w) as H. cbv zeta in H.
  destruct (get_payments_body limit w) as [[ps|e] w'];
    cbn [snd sent set_errors];
    destruct H as (_ & _ & _ & _ & _ & -> & _);
    by destruct (calls_ok 2 (faults w)).
Qed.

Lemma add_payment_sent conn name amt cur pm w :
  sent (add_payment conn name amt cur pm w).2
  = sent w ++ take (submitted conn w)
                [(query_insert,
                  insert_params name amt cur pm (clock w (reads w)))].
Proof.
  unfold add_payment, submitted. destruct conn as [c|].
  2: { simpl. by rewrite app_nil_r. }
  rewrite try_except_run.
  pose proof (add_payment_body_spec name amt cur pm w) as H. cbv zeta in H.
  destruct (add_payment_body name amt cur pm w) as [[b|e] w'];
    cbn [snd sent set_errors];
    destruct H as (_ & _ & _ & _ & -> & _);
    by destruct (calls_ok 2 (faults w)).
Qed.

Lemma update_payment_status_sent conn pid st w :
  sent (update_payment_status conn pid st w).2
  = sent w ++ take (submitted conn w)
                [(query_update, update_params st (clock w (reads w)) pid)].
Proof.
  unfold update_payment_status, submitted. destruct conn as [c|].
  2: { simpl. by rewrite app_nil_r. }
  rewrite try_except_run.
  pose proof (update_payment_status_body_spec pid st w) as H.
  cbv zeta in H.
  destruct (update_payment_status_body pid st w) as [[b|e] w'];
    cbn [snd sent set_errors];
    destruct H as (_ & _ & _ & _ & -> & _);
    by destruct (calls_ok 2 (faults w)).
Qed.

Lemma texts_sent w w' new :
  sent w' = sent w ++ new → texts w' = texts w ++ new.*1.
Proof. unfold texts. intros ->. apply fmap_app. Qed.

(** C9: the query texts a function submits do not depend on its
    arguments.  For a given connection and world each function submits a
    prefix, of a length fixed before the arguments are known, of its own
    list of literal texts; the arguments travel only in the parameter
    lists that accompany the texts. *)
Theorem query_texts_are_constant conn w :
  ∃ k : nat,
    (∀ limit,
       sent (get_payments conn limit w).2
       = sent w ++ take (submitted conn w) [(query_select, [VInt limit])]
       ∧ texts (get_payments conn limit w).2
         = texts w ++ take (submitted conn w) [query_select])
    ∧ (∀ name amt cur pm,
         sent (add_payment conn name amt cur pm w).2
         = sent w ++ take (submitted conn w)
                       [(query_insert,
                         insert_params name amt cur pm (clock w (reads w)))]
         ∧ texts (add_payment conn name amt cur pm w).2
           = texts w ++ take (submitted conn w) [query_insert])
    ∧ (∀ pid st,
         sent (update_payment_status conn pid st w).2
         = sent w ++ take (submitted conn w)
                       [(query_update,
                         update_params st (clock w (reads w)) pid)]
         ∧ texts (update_payment_status conn pid st w).2
           = texts w ++ take (submitted conn w) [query_update])
    ∧ texts (get_payment_stats conn w).2
      = texts w ++ take k [query_today; query_by_status; query_recent].
Proof.
  destruct (get_payment_stats_spec conn w)
    as (d & w' & Hrun & _ & _ & _ & _ & _ & k & Hk).
  exists k. repeat split.
  - apply get_payments_sent.
  - rewrite (texts_sent _ _ _ (get_payments_sent conn limit w)).
    by rewrite fmap_take.
  - apply add_payment_sent.
  - rewrite (texts_sent _ _ _ (add_payment_sent conn name amt cur pm w)).
    by rewrite fmap_take.
  - apply update_payment_status_sent.
  - rewrite (texts_sent _ _ _ (update_payment_status_sent conn pid st w)).
    by rewrite fmap_take.
  - rewrite Hrun. cbn [snd]. rewrite (texts_sent _ _ _ Hk).
    by rewrite fmap_take.
Qed.

(** ** Sequences of operations *)

Lemma get_payments_frame conn limit w :
  let w' := (get_payments conn limit w).2 in
  table w' = table w ∧ clock w' = clock w ∧ reads w' = reads w.
Proof.
  unfold get_payments. destruct conn as [c|]; [|done].
  rewrite try_except_run.
  pose proof (get_payments_body_spec limit w) as H. cbv zeta in H.
  by destruct (get_payments_body limit w) as [[ps|e] w'];
    destruct H as (? & ? & ? & _).
Qed.

Lemma run_operation_ordered conn o w :
  clock_monotone w → timestamps_ordered (table w) → not_from_future w →
  let w' := run_operation conn o w in
  clock w' = clock w ∧ timestamps_ordered (table w') ∧ not_from_future w'.
Proof.
  intros Hmono Hord Hfut. destruct o as [limit|name amt cur pm|pid st|];
    cbn [run_operation].
  - destruct (get_payments_frame conn limit w) as (Ht & Hc & Hr).
    unfold timestamps_ordered, not_from_future.
    by rewrite Ht, Hc, Hr.
  - destruct (add_payment_spec conn name amt cur pm w)
      as (b & w1 & Hrun & Hc & _ & Hr & Ht & _).
    rewrite Hrun. cbn [snd]. split; [done|].
    assert (clock w (reads w) ≤ clock w (reads w1)) as Hnow
      by (apply Hmono; lia).
    unfold timestamps_ordered, not_from_future. rewrite Hc.
    destruct Ht as [->|[_ ->]].
    + split; [done|]. intros p Hp. specialize (Hfut p Hp). lia.
    + rewrite insert_row_rows. split; intros p [Hp|Hp]%elem_of_app.
      * by apply Hord.
      * apply list_elem_of_singleton in Hp as ->. done.
      * specialize (Hfut p Hp). lia.
      * apply list_elem_of_singleton in Hp as ->. done.
  - destruct (update_payment_status_spec conn pid st w)
      as (b & w1 & Hrun & Hc & _ & Hr & Ht & _).
    rewrite Hrun. cbn [snd]. split; [done|].
    assert (clock w (reads w) ≤ clock w (reads w1)) as Hnow
      by (apply Hmono; lia).
    unfold timestamps_ordered, not_from_future. rewrite Hc.
    destruct Ht as [->|[_ ->]].
    + split; [done|]. intros p Hp. specialize (Hfut p Hp). lia.
    + rewrite update_rows_rows.
      split; intros q (p & -> & Hp)%list_elem_of_fmap;
        specialize (Hord p Hp); specialize (Hfut p Hp);
        unfold update_row; destruct (Z.eqb (id p) pid); simpl; lia.
  - destruct (get_payment_stats_spec conn w)
      as (d & w1 & Hrun & Ht & Hc & _ & Hr & _).
    rewrite Hrun. cbn [snd]. split; [done|].
    unfold timestamps_ordered, not_from_future. rewrite Ht, Hc.
    split; [done|]. intros p Hp. specialize (Hfut p Hp).
    specialize (Hmono _ _ Hr). lia.
Qed.

Lemma run_operations_ordered conn os w :
  clock_monotone w → timestamps_ordered (table w) → not_from_future w →
  timestamps_ordered (table (run_operations conn os w)).
Proof.
  unfold run_operations. revert w.
  induction os as [|o os IH]; intros w Hmono Hord Hfut; [done|].
  destruct (run_operation_ordered conn o w Hmono Hord Hfut)
    as (Hc & Hord' & Hfut').
  simpl. apply IH; [|done|done].
  unfold clock_monotone. by rewrite Hc.
Qed.

(** C8: if the clock does not go backwards, then after any sequence of
    calls to the four functions, whatever their outcomes, every row has
    [updated_at >= created_at]: when the sequence starts from an empty
    table, and more generally when it starts from rows that satisfy the
    invariant and are not dated after the next clock reading. *)
Theorem updated_at_never_before_created_at conn os w :
  clock_monotone w →
  (rows (table w) = [] →
   timestamps_ordered (table (run_operations conn os w)))
  ∧ (timestamps_ordered (table w) → not_from_future w →
     timestamps_ordered (table (run_operations conn os w))).
Proof.
  intros Hmono. split; [|by apply run_operations_ordered].
  intros Hempty. apply run_operations_ordered; [done|..].
  - intros p Hp. rewrite Hempty in Hp. by apply elem_of_nil in Hp.
  - intros p Hp. rewrite Hempty in Hp. by apply elem_of_nil in Hp.
Qed.

Lemma updated_at_never_before_created_at_witness :
  let os := [OpInsert "Alice" alice_amount "USD" "credit_card";
             OpUpdate 1 "completed"; OpList 50; OpStats] in
  (rows (table ticking_world) = [] →
   timestamps_ordered
     (table (run_operations (Some Connected) os ticking_world)))
  ∧ (timestamps_ordered (table ticking_world) →
     not_from_future ticking_world →
     timestamps_ordered
       (table (run_operations (Some Connected) os ticking_world))).
Proof.
  apply (updated_at_never_before_created_at (Some Connected) _
           ticking_world).
  intros i j Hij. simpl. lia.
Defined.

(** ** Further properties of the four functions *)

(** X1: when no driver call fails, [get_payments] returns the images of
    the [limit] newest rows: the rows it returns together with the rows
    it leaves out are the whole table, it returns [min limit (number of
    rows)] of them, and no row left out is newer than a row returned. *)
Theorem get_payments_returns_the_newest c limit w :
  0 ≤ limit → calls_ok 4 (faults w) = true →
  ∃ sel rest w',
    get_payments (Some c) limit w = (Ok (payment_dict <$> sel), w')
    ∧ sel ++ rest ≡ₚ rows (table w)
    ∧ Z.of_nat (length sel)
      = Z.min limit (Z.of_nat (length (rows (table w))))
    ∧ ∀ p q, p ∈ sel → q ∈ rest → created_at q ≤ created_at p.
Proof.
  intros Hl Hk.
  destruct (get_payments_ok c limit w Hl Hk) as (w' & Hrun & _).
  destruct (select_recent_split limit (table w)) as (rest & Hperm & Hnew).
  exists (select_recent limit (table w)), rest, w'.
  split; [done|]. split; [done|]. split; [|done].
  unfold select_recent. rewrite length_take.
  rewrite (Permutation_length (merge_sort_Permutation _ _)). lia.
Qed.

Lemma get_payments_returns_the_newest_witness :
  ∃ sel rest w',
    get_payments (Some Connected) 1 behind_world
    = (Ok (payment_dict <$> sel), w')
    ∧ sel ++ rest ≡ₚ rows (table behind_world)
    ∧ Z.of_nat (length sel)
      = Z.min 1 (Z.of_nat (length (rows (table behind_world))))
    ∧ ∀ p q, p ∈ sel → q ∈ rest → created_at q ≤ created_at p.
Proof.
  apply (get_payments_returns_the_newest Connected 1 behind_world).
  - lia.
  - reflexivity.
Defined.

Lemma get_payments_returns conn limit w :
  ∃ ps w', get_payments conn limit w = (Ok ps, w').
Proof.
  destruct (guarded_run conn (get_payments_body limit)
              "Error fetching payments: " [] w) as (v & w' & H & _).
  by exists v, w'.
Qed.

Lemma payment_dict_dom p :
  dom (payment_dict p) = list_to_set select_columns.
Proof.
  unfold payment_dict, row_dict, py_dict, select_columns, row_values.
  cbn [zip zip_with foldl fst snd list_to_set].
  rewrite !dom_insert_L, dom_empty_L. set_solver.
Qed.

(** X2: every dictionary [get_payments] returns, whatever the outcome,
    is the image of a row of the table: it has exactly the eight selected
    columns as keys and each key holds the row's field. *)
Theorem get_payments_dicts_mirror_rows conn limit w :
  ∃ ps w',
    get_payments conn limit w = (Ok ps, w')
    ∧ ∀ d, d ∈ ps →
        ∃ p, p ∈ rows (table w)
             ∧ dom d = list_to_set select_columns
             ∧ d !! "id" = Some (VInt (id p))
             ∧ d !! "customer_name" = Some (VStr (customer_name p))
             ∧ d !! "amount" = Some (VDec (amount p))
             ∧ d !! "currency" = Some (VStr (currency p))
             ∧ d !! "status" = Some (VStr (status p))
             ∧ d !! "payment_method" = Some (VStr (payment_method p))
             ∧ d !! "created_at" = Some (VTime (created_at p))
             ∧ d !! "updated_at" = Some (VTime (updated_at p)).
Proof.
  destruct (get_payments_returns conn limit w) as (ps & w' & Hrun).
  exists ps, w'. split; [done|]. intros d Hd.
  destruct (get_payments_rows _ _ _ _ _ Hrun) as (sel & -> & Hsel).
  apply list_elem_of_fmap in Hd as (p & -> & Hp).
  exists p. split; [by apply Hsel|]. split; [apply payment_dict_dom|].
  repeat split.
Qed.

(** X3: a limit that is not positive yields no rows.  With limit 0 the
    query runs and returns nothing, and nothing is reported.  With a
    negative limit and a connection the call always fails: it returns the
    empty list together with exactly one message that carries the
    function's prefix, and when [cursor()] and [execute] are reached the
    statement has been submitted, so that the failure is the database's
    rejection.  The table is left as it was in every case. *)
Theorem get_payments_without_positive_limit conn limit w :
  limit ≤ 0 →
  ∃ w',
    get_payments conn limit w = (Ok [], w')
    ∧ table w' = table w
    ∧ (limit = 0 → calls_ok 4 (faults w) = true → errors w' = errors w)
    ∧ (limit < 0 → conn ≠ None →
       (∃ e, errors w'
             = errors w ++ ["Error fetching payments: " +:+ e])
       ∧ (calls_ok 2 (faults w) = true →
          sent w' = sent w ++ [(query_select, [VInt limit])])).
Proof.
  intros Hl. unfold get_payments. destruct conn as [c|].
  2: { exists w. repeat split; done. }
  rewrite try_except_run.
  pose proof (get_payments_body_spec limit w) as H. cbv zeta in H.
  destruct (get_payments_body limit w) as [[ps|e] w1] eqn:Hbody.
  - destruct H as (Ht & _ & _ & He & _ & _ & Hn & _ & ->).
    assert (limit = 0) as -> by lia.
    exists w1. repeat split; try done; lia.
  - destruct H as (Ht & _ & _ & He & _ & Hs & Hfail).
    eexists. split; [done|]. cbn [table errors sent set_errors].
    split; [done|]. split.
    + intros -> Hk. destruct Hfail; [lia|congruence].
    + intros Hneg _. split.
      * exists e. by rewrite He.
      * intros Hk. by rewrite Hs, Hk.
Qed.

Lemma get_payments_without_positive_limit_witness :
  ∃ w',
    get_payments (Some Connected) (-3) behind_world = (Ok [], w')
    ∧ table w' = table behind_world
    ∧ (-3 = 0 → calls_ok 4 (faults behind_world) = true →
       errors w' = errors behind_world)
    ∧ (-3 < 0 → Some Connected ≠ None →
       (∃ e, errors w'
             = errors behind_world ++ ["Error fetching payments: " +:+ e])
       ∧ (calls_ok 2 (faults behind_world) = true →
          sent w'
          = sent behind_world ++ [(query_select, [VInt (-3)])])).
Proof.
  apply (get_payments_without_positive_limit (Some Connected) (-3)
           behind_world).
  lia.
Defined.

(** X4: the two reading functions never write: whatever their outcome,
    [get_payments] leaves the table and the clock position as they were,
    and [get_payment_stats] leaves the table as it was. *)
Theorem reading_functions_do_not_write conn limit w :
  table (get_payments conn limit w).2 = table w
  ∧ reads (get_payments conn limit w).2 = reads w
  ∧ table (get_payment_stats conn w).2 = table w.
Proof.
  destruct (get_payments_frame conn limit w) as (Ht & _ & Hr).
  destruct (get_payment_stats_spec conn w) as (d & w' & Hrun & Ht' & _).
  split; [done|]. split; [done|]. by rewrite Hrun.
Qed.

(** *** The histogram adds up *)

Lemma count_cons s p l :
  Z.of_nat (length (List.filter (has_status s) (p :: l)))
  = (if String.eqb (status p) s then 1 else 0)
    + Z.of_nat (length (List.filter (has_status s) l)).
Proof.
  simpl. unfold has_status at 1.
  destruct (String.eqb (status p) s); simpl; lia.
Qed.

Lemma indicator_sum x (ks : list string) :
  NoDup ks →
  foldr (λ s acc, (if String.eqb x s then 1 else 0) + acc) 0 ks
  = if bool_decide (x ∈ ks) then 1 else 0.
Proof.
  induction 1 as [|k ks Hk Hnd IH]; [done|]. simpl. rewrite IH.
  destruct (String.eqb_spec x k) as [->|Hne].
  - rewrite (bool_decide_eq_true_2 (k ∈ k :: ks)) by left.
    by rewrite (bool_decide_eq_false_2 (k ∈ ks)).
  - destruct (decide (x ∈ ks)) as [Hin|Hin].
    + rewrite (bool_decide_eq_true_2 (x ∈ ks)) by done.
      by rewrite (bool_decide_eq_true_2 (x ∈ k :: ks)) by (by right).
    + rewrite (bool_decide_eq_false_2 (x ∈ ks)) by done.
      rewrite (bool_decide_eq_false_2 (x ∈ k :: ks)); [done|].
      by intros [?|?]%elem_of_cons.
Qed.

Lemma counts_add_up (ks : list string) (l : list Payment) :
  NoDup ks → (∀ p, p ∈ l → status p ∈ ks) →
  foldr (λ s acc, Z.of_nat (length (List.filter (has_status s) l)) + acc)
        0 ks
  = Z.of_nat (length l).
Proof.
  intros Hnd. induction l as [|p l IH]; intros Hin.
  - clear. induction ks as [|k ks IHk]; [done|]. simpl in *.
    by rewrite IHk.
  - assert (foldr (λ s acc,
              Z.of_nat (length (List.filter (has_status s) (p :: l))) + acc)
              0 ks
            = foldr (λ s acc,
                (if String.eqb (status p) s then 1 else 0) + acc) 0 ks
              + foldr (λ s acc,
                  Z.of_nat (length (List.filter (has_status s) l)) + acc)
                  0 ks) as ->.
    { clear. induction ks as [|k ks IHk]; [done|].
      cbn [foldr]. rewrite IHk, count_cons. lia. }
    rewrite IH by (intros q Hq; apply Hin; by right).
    rewrite indicator_sum by done.
    rewrite bool_decide_eq_true_2 by (apply Hin; left).
    simpl length. lia.
Qed.

Lemma foldr_snd_permutation (l k : list (string * Z)) :
  l ≡ₚ k →
  foldr (λ kv acc, kv.2 + acc) 0 l = foldr (λ kv acc, kv.2 + acc) 0 k.
Proof.
  induction 1 as [|x l k _ IH|x y l|l k m _ IH1 _ IH2]; simpl; lia.
Qed.

Lemma status_distribution_total t :
  dict_total (py_dict (group_by_status t)) = Z.of_nat (length (rows t)).
Proof.
  unfold dict_total. rewrite py_dict_reverse.
  rewrite (foldr_snd_permutation _ (reverse (group_by_status t))).
  2: { apply map_to_list_to_map.
       rewrite fmap_reverse, group_by_status_keys, reverse_Permutation.
       apply NoDup_remove_dups. }
  rewrite (foldr_snd_permutation _ _ (reverse_Permutation _)).
  unfold group_by_status, count_where. rewrite foldr_fmap. simpl.
  apply counts_add_up; [apply NoDup_remove_dups|].
  intros p Hp. apply elem_of_remove_dups. by apply list_elem_of_fmap_2.
Qed.

(** X5: when no driver call fails, the counts in [status_distribution]
    add up to the number of rows in the table: every row is counted under
    exactly one status. *)
Theorem status_distribution_counts_every_row c w :
  calls_ok 8 (faults w) = true →
  ∃ d w' m,
    get_payment_stats (Some c) w = (Ok d, w')
    ∧ d !! "status_distribution" = Some (VDict m)
    ∧ dict_total m = Z.of_nat (length (rows (table w))).
Proof.
  intros Hk.
  destruct (get_payment_stats_spec (Some c) w)
    as (d & w' & Hrun & _ & _ & _ & _ & Hd & _).
  destruct Hd as [(_ & _ & ->)|[[?|?] _]]; [|done|congruence].
  eexists _, w', _. split; [exact Hrun|]. split.
  - apply stats_of_lookups.
  - apply status_distribution_total.
Qed.

Lemma status_distribution_counts_every_row_witness :
  ∃ d w' m,
    get_payment_stats (Some Connected) behind_world = (Ok d, w')
    ∧ d !! "status_distribution" = Some (VDict m)
    ∧ dict_total m = Z.of_nat (length (rows (table behind_world))).
Proof.
  apply (status_distribution_counts_every_row Connected behind_world).
  reflexivity.
Defined.

(** *** How the operations compose *)

Lemma count_where_insert s p t :
  count_where (has_status s) (insert_row p t)
  = count_where (has_status s) t
    + (if String.eqb (status p) s then 1 else 0).
Proof.
  unfold count_where. rewrite insert_row_rows, List.filter_app, length_app.
  simpl. unfold has_status at 2.
  destruct (String.eqb (status p) s); simpl; lia.
Qed.

(** X6: a payment that has just been added shows up in the statistics:
    after [add_payment] returned true, a [get_payment_stats] whose driver
    calls succeed reports one more pending payment than the table held
    before, and the counts of the other statuses as they were. *)
Theorem added_payment_counts_as_pending conn name amt cur pm w w1 :
  add_payment conn name amt cur pm w = (Ok true, w1) →
  calls_ok 8 (faults w1) = true →
  ∃ d w2 m,
    get_payment_stats conn w1 = (Ok d, w2)
    ∧ d !! "status_distribution" = Some (VDict m)
    ∧ m !! "pending"
      = Some (count_where (has_status "pending") (table w) + 1)
    ∧ ∀ s, s ≠ "pending" →
           m !! s = py_dict (group_by_status (table w)) !! s.
Proof.
  intros Hadd Hk.
  destruct (add_payment_spec conn name amt cur pm w)
    as (b & w1' & Hrun & _ & _ & _ & _ & Hb & Hins).
  rewrite Hadd in Hrun. injection Hrun as <- <-.
  destruct (Hins eq_refl) as (Ht & _ & _).
  destruct conn as [c|]; [|by destruct (proj1 Hb eq_refl) as [? _]].
  destruct (get_payment_stats_spec (Some c) w1)
    as (d & w2 & Hstats & _ & _ & _ & _ & Hd & _).
  destruct Hd as [(_ & _ & ->)|[[?|?] _]]; [|done|congruence].
  eexists _, w2, _. split; [exact Hstats|].
  split; [apply stats_of_lookups|].
  set (p := new_row name amt cur "pending" pm (clock w (reads w))
              (clock w (reads w)) (table w)) in *.
  assert (∀ s, s ∈ status <$> rows (table w1)
               ↔ s = "pending" ∨ s ∈ status <$> rows (table w)) as Hin.
  { intros s. rewrite Ht, insert_row_rows, fmap_app, elem_of_app. simpl.
    rewrite list_elem_of_singleton. tauto. }
  split.
  - rewrite status_distribution_lookup.
    rewrite bool_decide_eq_true_2 by (apply Hin; by left).
    by rewrite Ht, count_where_insert.
  - intros s Hs. rewrite !status_distribution_lookup.
    assert (count_where (has_status s) (table w1)
            = count_where (has_status s) (table w)) as ->.
    { rewrite Ht, count_where_insert.
      replace (String.eqb (status p) s) with false; [lia|].
      symmetry. apply String.eqb_neq. by intros <-. }
    destruct (decide (s ∈ status <$> rows (table w))) as [Hs'|Hs'].
    + rewrite !bool_decide_eq_true_2; [done|done|apply Hin; by right].
    + rewrite !bool_decide_eq_false_2; [done|done|].
      intros [?|?]%Hin; done.
Qed.

Lemma added_payment_counts_as_pending_witness :
  ∃ d w2 m,
    get_payment_stats (Some Connected)
      (add_payment (Some Connected) "Alice" alice_amount "USD"
         "credit_card" behind_world).2
    = (Ok d, w2)
    ∧ d !! "status_distribution" = Some (VDict m)
    ∧ m !! "pending"
      = Some (count_where (has_status "pending") (table behind_world) + 1)
    ∧ ∀ s, s ≠ "pending" →
           m !! s = py_dict (group_by_status (table behind_world)) !! s.
Proof.
  apply (added_payment_counts_as_pending (Some Connected) "Alice"
           alice_amount "USD" "credit_card" behind_world).
  - vm_compute. reflexivity.
  - vm_compute. reflexivity.
Defined.

Lemma update_row_twice s1 u1 s2 u2 pid p :
  update_row s2 u2 pid (update_row s1 u1 pid p) = update_row s2 u2 pid p.
Proof.
  unfold update_row. destruct (Z.eqb (id p) pid) eqn:E.
  - simpl. by rewrite E.
  - by rewrite E.
Qed.

(** X7: the last write wins.  When two calls of [update_payment_status]
    for the same id both return true, the table is what the second call
    alone would have made of the original table: the first status and its
    timestamp leave no trace.  In particular, repeating a call keeps the
    status and only moves [updated_at]. *)
Theorem last_status_update_wins conn pid s1 s2 w w1 w2 :
  update_payment_status conn pid s1 w = (Ok true, w1) →
  update_payment_status conn pid s2 w1 = (Ok true, w2) →
  table w2 = update_rows s2 (clock w (S (reads w))) pid (table w)
  ∧ ∀ q, q ∈ rows (table w2) → id q = pid →
         status q = s2 ∧ updated_at q = clock w (S (reads w)).
Proof.
  intros H1 H2.
  destruct (update_payment_status_spec conn pid s1 w)
    as (b & w1' & Hrun & Hc & _ & _ & _ & _ & Hupd).
  rewrite H1 in Hrun. injection Hrun as <- <-.
  destruct (Hupd eq_refl) as (Ht1 & Hr1 & _).
  destruct (update_payment_status_spec conn pid s2 w1)
    as (b & w2' & Hrun & _ & _ & _ & _ & _ & Hupd2).
  rewrite H2 in Hrun. injection Hrun as <- <-.
  destruct (Hupd2 eq_refl) as (Ht2 & _ & _).
  rewrite Hc, Hr1, Ht1 in Ht2.
  assert (table w2 = update_rows s2 (clock w (S (reads w))) pid (table w))
    as Ht.
  { rewrite Ht2. unfold update_rows. cbn [rows next_id]. f_equal.
    rewrite <- list_fmap_compose. apply list_fmap_ext.
    intros i p _. apply update_row_twice. }
  split; [done|]. intros q. rewrite Ht, update_rows_rows.
  intros (p & -> & Hp)%list_elem_of_fmap. rewrite update_row_id.
  intros Hid. by rewrite (update_row_hit _ _ _ _ Hid).
Qed.

Lemma last_status_update_wins_witness :
  let r1 := update_payment_status (Some Connected) 1 "failed"
              behind_world in
  let r2 := update_payment_status (Some Connected) 1 "refunded" r1.2 in
  table r2.2
  = update_rows "refunded" (clock behind_world (S (reads behind_world))) 1
      (table behind_world)
  ∧ ∀ q, q ∈ rows (table r2.2) → id q = 1 →
         status q = "refunded"
         ∧ updated_at q = clock behind_world (S (reads behind_world)).
Proof.
  intros r1 r2.
  apply (last_status_update_wins (Some Connected) 1 "failed" "refunded"
           behind_world r1.2 r2.2).
  - vm_compute. reflexivity.
  - vm_compute. reflexivity.
Defined.

(** *** What a history of calls preserves *)

Lemma ids_fresh_free t : ids_fresh t → id_free (next_id t) t = true.
Proof.
  intros [_ Hlt]. unfold id_free. apply forallb_forall.
  intros p Hp%list_elem_of_In. specialize (Hlt p Hp).
  apply negb_true_iff, Z.eqb_neq. lia.
Qed.

Lemma ids_fresh_insert p t :
  ids_fresh t → id p = next_id t → ids_fresh (insert_row p t).
Proof.
  intros [Hnd Hlt] Hid. split.
  - rewrite insert_row_rows, fmap_app. apply NoDup_app.
    split; [done|]. split; [|apply NoDup_singleton].
    intros i (q & -> & Hq)%list_elem_of_fmap Hi. simpl in Hi.
    apply list_elem_of_singleton in Hi. specialize (Hlt q Hq). lia.
  - intros q. rewrite insert_row_rows.
    intros [Hq|Hq%list_elem_of_singleton]%elem_of_app.
    + specialize (Hlt q Hq). unfold insert_row. simpl. lia.
    + subst q. unfold insert_row. simpl. lia.
Qed.

Lemma ids_fresh_update s u pid t :
  ids_fresh t → ids_fresh (update_rows s u pid t).
Proof.
  intros [Hnd Hlt]. split.
  - rewrite update_rows_rows, <- list_fmap_compose.
    erewrite list_fmap_ext; [exact Hnd|].
    intros i p _. apply update_row_id.
  - intros q. rewrite update_rows_rows.
    intros (p & -> & Hp)%list_elem_of_fmap. rewrite update_row_id.
    by apply Hlt.
Qed.

Lemma run_operation_ids_fresh conn o w :
  ids_fresh (table w) → ids_fresh (table (run_operation conn o w)).
Proof.
  intros Hf. destruct o as [limit|name amt cur pm|pid st|];
    cbn [run_operation].
  - by destruct (get_payments_frame conn limit w) as (-> & _).
  - destruct (add_payment_spec conn name amt cur pm w)
      as (b & w1 & Hrun & _ & _ & _ & Ht & _).
    rewrite Hrun. cbn [snd]. destruct Ht as [->|[_ ->]]; [done|].
    by apply ids_fresh_insert.
  - destruct (update_payment_status_spec conn pid st w)
      as (b & w1 & Hrun & _ & _ & _ & Ht & _).
    rewrite Hrun. cbn [snd]. destruct Ht as [->|[_ ->]]; [done|].
    by apply ids_fresh_update.
  - destruct (get_payment_stats_spec conn w)
      as (d & w1 & Hrun & Ht & _).
    rewrite Hrun. cbn [snd]. by rewrite Ht.
Qed.

Lemma run_operations_ids_fresh conn os w :
  ids_fresh (table w) → ids_fresh (table (run_operations conn os w)).
Proof.
  unfold run_operations. revert w.
  induction os as [|o os IH]; intros w Hf; [done|].
  simpl. apply IH. by apply run_operation_ids_fresh.
Qed.

(** X8: ids stay unique.  If the ids in the table are distinct and below
    the next value of the sequence, they still are after any sequence of
    calls to the four functions, whatever their outcomes; and then a
    valid payment can always be added: [add_payment] returns true
    whenever there is a connection and its four driver calls succeed. *)
Theorem ids_stay_unique conn os w :
  ids_fresh (table w) →
  let w' := run_operations conn os w in
  ids_fresh (table w')
  ∧ ∀ name amt cur pm,
      valid_input name amt cur pm → conn ≠ None →
      calls_ok 4 (faults w') = true →
      (add_payment conn name amt cur pm w').1 = Ok true.
Proof.
  intros Hf w'.
  assert (ids_fresh (table w')) as Hf'
    by (by apply run_operations_ids_fresh).
  split; [done|]. intros name amt cur pm Hv Hc Hk.
  destruct (add_payment_spec conn name amt cur pm w')
    as (b & w1 & Hrun & _ & _ & _ & _ & Hb & _).
  rewrite Hrun. cbn [fst]. f_equal. apply Hb.
  split; [done|]. split; [done|].
  rewrite (valid_input_constraints _ _ _ _ _ _ _ Hv). simpl.
  by apply ids_fresh_free.
Qed.

Lemma ids_stay_unique_witness :
  let os := [OpInsert "Alice" alice_amount "USD" "credit_card";
             OpUpdate 1 "completed"; OpList 50; OpStats] in
  let w' := run_operations (Some Connected) os ticking_world in
  ids_fresh (table w')
  ∧ ∀ name amt cur pm,
      valid_input name amt cur pm → Some Connected ≠ None →
      calls_ok 4 (faults w') = true →
      (add_payment (Some Connected) name amt cur pm w').1 = Ok true.
Proof.
  apply (ids_stay_unique (Some Connected) _ ticking_world).
  split.
  - simpl. constructor.
  - intros p Hp. simpl in Hp. by apply elem_of_nil in Hp.
Defined.

Lemma run_operation_identity conn o w :
  identity_of <$> rows (table w)
  `prefix_of` identity_of <$> rows (table (run_operation conn o w)).
Proof.
  destruct o as [limit|name amt cur pm|pid st|]; cbn [run_operation].
  - by destruct (get_payments_frame conn limit w) as (-> & _).
  - destruct (add_payment_spec conn name amt cur pm w)
      as (b & w1 & Hrun & _ & _ & _ & Ht & _).
    rewrite Hrun. cbn [snd]. destruct Ht as [->|[_ ->]]; [done|].
    rewrite insert_row_rows, fmap_app. by apply prefix_app_r.
  - destruct (update_payment_status_spec conn pid st w)
      as (b & w1 & Hrun & _ & _ & _ & Ht & _).
    rewrite Hrun. cbn [snd]. destruct Ht as [->|[_ ->]]; [done|].
    rewrite update_rows_rows, <- list_fmap_compose.
    erewrite list_fmap_ext; [done|].
    intros i p _. unfold update_row. simpl.
    by destruct (Z.eqb (id p) pid).
  - destruct (get_payment_stats_spec conn w)
      as (d & w1 & Hrun & Ht & _).
    rewrite Hrun. cbn [snd]. by rewrite Ht.
Qed.

(** X9: rows are only ever appended.  After any sequence of calls to the
    four functions, whatever their outcomes, the rows that were in the
    table are still there, in the same order and in front of any new row,
    each with the id, customer name, amount, currency, payment method and
    [created_at] it had: nothing is deleted, reordered or re-dated. *)
Theorem rows_are_only_appended conn os w :
  identity_of <$> rows (table w)
  `prefix_of` identity_of <$> rows (table (run_operations conn os w)).
Proof.
  unfold run_operations. revert w.
  induction os as [|o os IH]; intros w; [done|].
  simpl. etrans; [apply (run_operation_identity conn o)|apply IH].
Qed.

(** ** The connection and the page *)

Lemma init_connection_run env connect w :
  init_connection env connect w
  = match connect (args_of env) with
    | Ok c => (Ok (Some c), w)
    | Raise e =>
        (Ok None,
         set_errors (errors w ++ ["Failed to connect to database: " +:+ e])
           w)
    end.
Proof.
  unfold init_connection. rewrite try_except_run. fold (args_of env).
  by destruct (connect (args_of env)).
Qed.

(** X10: [init_connection] never raises.  It passes the five settings
    read from the environment to the driver, with port 5432 when
    [NEON_PORT] is not set and with TLS required; it returns the
    connection the driver gives and says nothing, or returns [None] after
    exactly one message when the driver raises.  Nothing else changes. *)
Theorem init_connection_never_raises env connect w :
  ∃ args,
    arg_host args = env !! "NEON_HOST"
    ∧ arg_database args = env !! "NEON_DATABASE"
    ∧ arg_user args = env !! "NEON_USER"
    ∧ arg_password args = env !! "NEON_PASSWORD"
    ∧ arg_port args = default "5432" (env !! "NEON_PORT")
    ∧ arg_sslmode args = "require"
    ∧ match connect args with
      | Ok c => init_connection env connect w = (Ok (Some c), w)
      | Raise e =>
          init_connection env connect w
          = (Ok None,
             set_errors
               (errors w ++ ["Failed to connect to database: " +:+ e]) w)
      end.
Proof.
  exists (args_of env). do 6 (split; [reflexivity|]).
  rewrite init_connection_run. by destruct (connect (args_of env)).
Qed.

Lemma selectbox_elem {A} (options : list A) choice x :
  selectbox options choice = Some x → x ∈ options.
Proof.
  unfold selectbox. destruct (options !! choice) as [y|] eqn:E.
  - intros [= <-]. by eapply list_elem_of_lookup_2.
  - destruct options; [done|]. intros [= <-]. left.
Qed.

Lemma selectbox_some {A} (options : list A) choice :
  options ≠ [] → is_Some (selectbox options choice).
Proof.
  unfold selectbox. destruct (options !! choice); [eauto|].
  destruct options; [done|eauto].
Qed.

Lemma chosen_member (options : list string) choice :
  options ≠ [] →
  member (default "" (selectbox options choice)) options = true.
Proof.
  intros Hne. destruct (selectbox_some options choice Hne) as [x Hx].
  rewrite Hx. simpl. apply selectbox_elem in Hx.
  unfold member. apply existsb_exists. exists x.
  split; [by apply list_elem_of_In|apply String.eqb_refl].
Qed.

Lemma form_accepts_valid i :
  form_accepts i = true →
  valid_input (name_text i) (amount_number i)
    (default "" (selectbox currencies (currency_choice i)))
    (default "" (selectbox payment_methods (method_choice i))).
Proof.
  unfold form_accepts. intros [Hn Ha]%andb_true_iff.
  split; [|split; [|split]].
  - intros E. rewrite E in Hn. done.
  - by apply bool_decide_eq_true in Ha.
  - by apply chosen_member.
  - by apply chosen_member.
Qed.

Lemma add_payment_returns conn name amt cur pm w :
  ∃ b w1, add_payment conn name amt cur pm w = (Ok b, w1).
Proof.
  destruct (add_payment_spec conn name amt cur pm w) as (b & w1 & H & _).
  eauto.
Qed.

(** What the sidebar does, by the three ways the form can go. *)
Lemma sidebar_run conn i pg :
  let w := world pg in
  let cur := default "" (selectbox currencies (currency_choice i)) in
  let pm := default "" (selectbox payment_methods (method_choice i)) in
  let settings := (auto_refresh_checked i, refresh_slider i) in
  let base := shown pg ++ sidebar_elements in
  ∃ b w1,
    add_payment conn (name_text i) (amount_number i) cur pm w = (Ok b, w1)
    ∧ sidebar conn i pg
      = if add_submitted i then
          if form_accepts i then
            if b then
              (Rerun,
               mkPage w1
                 (base ++ [Success "Payment added successfully!"])
                 (slept pg))
            else
              (Next settings,
               mkPage (set_errors (errors w1 ++ ["Failed to add payment"])
                         w1)
                 base (slept pg))
          else
            (Next settings,
             mkPage (set_errors
                       (errors w ++ ["Please fill in all required fields"])
                       w)
               base (slept pg))
        else (Next settings, mkPage w base (slept pg)).
Proof.
  intros w cur pm settings base. subst w cur pm settings base.
  destruct (add_payment_returns conn (name_text i) (amount_number i)
              (default "" (selectbox currencies (currency_choice i)))
              (default "" (selectbox payment_methods (method_choice i)))
              (world pg)) as (b & w1 & Hadd).
  exists b, w1. split; [done|].
  unfold sidebar, show, call, st_rerun, st_error, modify, mbind, mret,
    P_bind, P_ret, form_accepts, sidebar_elements.
  destruct (add_submitted i); cbn [world shown slept];
    [|by rewrite <- !app_assoc].
  destruct (negb _ && _); cbn [world shown slept];
    [|by rewrite <- !app_assoc].
  rewrite Hadd. cbn [world shown slept].
  destruct b; cbn [world shown slept]; by rewrite <- !app_assoc.
Qed.

Lemma get_payment_stats_returns conn w :
  ∃ d w1,
    get_payment_stats conn w = (Ok d, w1)
    ∧ table w1 = table w
    ∧ (d = ∅ ∧ (conn = None ∨ calls_ok 8 (faults w) = false)
       ∨ conn ≠ None ∧ calls_ok 8 (faults w) = true
         ∧ d = stats_of (table w) (clock w (reads w))
                 (clock w (S (reads w)))).
Proof.
  destruct (get_payment_stats_spec conn w)
    as (d & w1 & Hrun & Ht & _ & _ & _ & Hd & _).
  exists d, w1. split; [done|]. split; [done|].
  destruct Hd as [(? & ? & ->)|[? ->]]; [right|left]; done.
Qed.

(** What the statistics block does: it never stops the run. *)
Lemma statistics_run conn pg :
  ∃ d w1,
    get_payment_stats conn (world pg) = (Ok d, w1)
    ∧ statistics conn pg
      = (Next tt, mkPage w1 (shown pg ++ stats_panel d) (slept pg)).
Proof.
  destruct (get_payment_stats_returns conn (world pg))
    as (d & w1 & Hrun & _ & Hd).
  exists d, w1. split; [done|].
  unfold statistics, show, call, crash, mbind, mret, P_bind, P_ret.
  rewrite Hrun. cbn [world shown slept]. unfold stats_panel, pending_of.
  destruct Hd as [[-> _]|(_ & _ & ->)].
  - unfold dict_get, chart_of. rewrite !lookup_empty.
    cbn [default py_truthy world shown slept]. by rewrite <- !app_assoc.
  - destruct (stats_of_lookups (table (world pg))
                (clock (world pg) (reads (world pg)))
                (clock (world pg) (S (reads (world pg)))))
      as (Hc & Ht & Hs & Hr).
    unfold dict_get, chart_of. rewrite Hs.
    cbn [default from_option Datatypes.id world shown slept].
    unfold py_truthy.
    destruct (bool_decide (py_dict (group_by_status (table (world pg))) = ∅));
      cbn [negb world shown slept]; by rewrite <- !app_assoc.
Qed.

Lemma ids_of_payment_dicts sel :
  ids_of (payment_dict <$> sel) = Some ((λ p, VInt (id p)) <$> sel).
Proof.
  unfold ids_of. apply mapM_Some.
  induction sel as [|p sel IH]; constructor; [|done].
  apply payment_dict_id.
Qed.

Lemma selectbox_fmap {A B} (f : A → B) (l : list A) n :
  selectbox (f <$> l) n = f <$> selectbox l n.
Proof.
  unfold selectbox. rewrite list_lookup_fmap.
  destruct (l !! n); [done|]. by destruct l.
Qed.

(** What the block of recent payments does, by the ways it can go. *)
Lemma recent_payments_run conn to_frame i pg :
  ∃ sel w1,
    get_payments conn 50 (world pg) = (Ok (payment_dict <$> sel), w1)
    ∧ (∀ p, p ∈ sel → p ∈ rows (table (world pg)))
    ∧ table w1 = table (world pg)
    ∧ recent_payments conn to_frame i pg
      = match sel with
        | [] =>
            (Next tt,
             mkPage w1
               (shown pg
                ++ [Subheader "Recent Payments";
                    Info
                      "No payments found. Add some payments to get started!"])
               (slept pg))
        | p0 :: _ =>
            match to_frame (payment_dict <$> sel) with
            | Raise e =>
                (Crash e,
                 mkPage w1 (shown pg ++ [Subheader "Recent Payments"])
                   (slept pg))
            | Ok df =>
                let base := shown pg ++ recent_elements df in
                if update_clicked i then
                  let pid :=
                    id (default p0 (selectbox sel (payment_choice i))) in
                  let st :=
                    default "" (selectbox statuses (status_choice i)) in
                  match update_payment_status conn pid st w1 with
                  | (Ok true, w2) =>
                      (Rerun,
                       mkPage w2
                         (base ++ [Success "Status updated successfully!"])
                         (slept pg))
                  | (Ok false, w2) =>
                      (Next tt,
                       mkPage
                         (set_errors
                            (errors w2 ++ ["Failed to update status"]) w2)
                         base (slept pg))
                  | (Raise e, w2) => (Crash e, mkPage w2 base (slept pg))
                  end
                else (Next tt, mkPage w1 base (slept pg))
            end
        end.
Proof.
  destruct (get_payments_returns conn 50 (world pg)) as (ps & w1 & Hrun).
  destruct (get_payments_rows _ _ _ _ _ Hrun) as (sel & -> & Hsel).
  exists sel, w1. split; [done|]. split; [done|]. split.
  { pose proof (get_payments_frame conn 50 (world pg)) as (Ht & _).
    by rewrite Hrun in Ht. }
  unfold recent_payments, library, show, call, crash, st_rerun, st_error,
    modify, mbind, mret, P_bind, P_ret, recent_elements.
  cbn [world shown slept]. rewrite Hrun. cbn [world shown slept].
  destruct sel as [|p0 sel'].
  { rewrite fmap_nil. cbn [world shown slept]. by rewrite <- ?app_assoc. }
  rewrite fmap_cons. cbn [world shown slept].
  rewrite <- fmap_cons.
  destruct (to_frame (payment_dict <$> p0 :: sel')) as [df|e];
    cbn [world shown slept]; [|done].
  rewrite ids_of_payment_dicts, selectbox_fmap.
  destruct (selectbox_some (p0 :: sel') (payment_choice i)) as [p Hp];
    [done|].
  rewrite Hp.
  cbn [fmap option_fmap option_map default from_option Datatypes.id].
  destruct (update_clicked i); cbn [world shown slept];
    [|by rewrite <- ?app_assoc].
  destruct (update_payment_status conn (id p) _ w1) as [[[|]|e] w2];
    cbn [world shown slept]; by rewrite <- ?app_assoc.
Qed.

(** One run of the script, phase by phase. *)
Lemma main_run env connect to_frame i pg :
  let pg0 := mkPage (world pg) (shown pg ++ page_top) (slept pg) in
  main env connect to_frame i pg
  = match connect (args_of env) with
    | Raise e =>
        let w1 :=
          set_errors
            (errors (world pg) ++ ["Failed to connect to database: " +:+ e])
            (world pg) in
        (Next tt,
         mkPage
           (set_errors
              (errors w1
               ++ ["Unable to connect to database. Please check your Neon configuration."])
              w1)
           (shown pg0 ++ hint_elements) (slept pg))
    | Ok c =>
        match sidebar (Some c) i pg0 with
        | (Next (auto, interval), pg1) =>
            match statistics (Some c) pg1 with
            | (Next _, pg2) =>
                match recent_payments (Some c) to_frame i pg2 with
                | (Next _, pg3) =>
                    if auto : bool then
                      (Rerun,
                       mkPage (world pg3) (shown pg3)
                         (slept pg3 ++ [interval]))
                    else (Next tt, pg3)
                | (Rerun, pg3) => (Rerun, pg3)
                | (Crash e, pg3) => (Crash e, pg3)
                end
            | (Rerun, pg2) => (Rerun, pg2)
            | (Crash e, pg2) => (Crash e, pg2)
            end
        | (Rerun, pg1) => (Rerun, pg1)
        | (Crash e, pg1) => (Crash e, pg1)
        end
    end.
Proof.
  intros pg0. subst pg0.
  unfold main, page_top, hint_elements.
  unfold show, call, st_error, modify, mbind, P_bind, mret, P_ret,
    time_sleep, st_rerun.
  cbn [world shown slept]. rewrite init_connection_run.
  destruct (connect (args_of env)) as [c|e]; cbn [world shown slept].
  - rewrite <- app_assoc. cbn [app].
    destruct (sidebar (Some c) i _) as [[[auto interval]| |e] pg1]; [|done..].
    destruct (statistics (Some c) pg1) as [[[]| |e] pg2]; [|done..].
    destruct (recent_payments (Some c) to_frame i pg2) as [[[]| |e] pg3]; [|done..].
    by destruct auto.
  - by rewrite <- !app_assoc.
Qed.

(** X11: without a connection the run ends at once.  When the driver
    raises, [main] shows the title and the configuration hint, reports
    the failure in two messages, and does nothing else: no statement is
    sent, the table is untouched, nothing sleeps and no rerun is asked
    for. *)
Theorem main_without_connection env connect to_frame i pg e :
  connect (args_of env) = Raise e →
  let r := main env connect to_frame i pg in
  r.1 = Next tt
  ∧ shown r.2 = shown pg ++ page_top ++ hint_elements
  ∧ errors (world r.2)
    = errors (world pg)
      ++ ["Failed to connect to database: " +:+ e;
          "Unable to connect to database. Please check your Neon configuration."]
  ∧ sent (world r.2) = sent (world pg)
  ∧ table (world r.2) = table (world pg)
  ∧ slept r.2 = slept pg.
Proof.
  intros Hconn r. subst r. rewrite main_run. cbv zeta. rewrite Hconn.
  cbn [fst snd world shown slept errors sent table set_errors].
  repeat split; by rewrite <- ?app_assoc.
Qed.

Lemma main_without_connection_witness :
  let env : gmap string string := ∅ in
  let connect : connect_args → outcome connection :=
    λ _, Raise "timeout" in
  let pg := mkPage still_world [] [] in
  let i := mkInputs true 10 "" alice_amount 0 0 false 0 0 false in
  let r := main env connect as_listed i pg in
  r.1 = Next tt
  ∧ shown r.2 = shown pg ++ page_top ++ hint_elements
  ∧ errors (world r.2)
    = errors (world pg)
      ++ ["Failed to connect to database: " +:+ "timeout";
          "Unable to connect to database. Please check your Neon configuration."]
  ∧ sent (world r.2) = sent (world pg)
  ∧ table (world r.2) = table (world pg)
  ∧ slept r.2 = slept pg.
Proof.
  intros env connect pg i.
  apply (main_without_connection env connect as_listed i pg "timeout").
  reflexivity.
Defined.

(** *** The page only submits checked writes *)

Lemma ids_kept_refl t : ids_kept t t.
Proof. intros p Hp. eauto. Qed.

Lemma ids_kept_trans t1 t2 t3 :
  ids_kept t1 t2 → ids_kept t2 t3 → ids_kept t1 t3.
Proof.
  intros H12 H23 p Hp. destruct (H12 p Hp) as (p' & Hp' & <-).
  by apply H23.
Qed.

Lemma ids_kept_insert p t : ids_kept t (insert_row p t).
Proof.
  intros q Hq. exists q. split; [|done].
  rewrite insert_row_rows, elem_of_app. by left.
Qed.

Lemma ids_kept_update s u pid t : ids_kept t (update_rows s u pid t).
Proof.
  intros q Hq. exists (update_row s u pid q). split.
  - rewrite update_rows_rows. by apply list_elem_of_fmap_2.
  - apply update_row_id.
Qed.

Lemma page_statement_kept t t' s :
  ids_kept t t' → page_statement t s → page_statement t' s.
Proof.
  intros Hk [H|[H|[H|(st & now & pid & Hst & (p & Hp & Hid) & ->)]]].
  - by left.
  - right. by left.
  - right. right. by left.
  - right. right. right. exists st, now, pid. split; [done|].
    split; [|done]. destruct (Hk p Hp) as (p' & Hp' & Hid').
    exists p'. split; [done|]. congruence.
Qed.

Lemma writes_checked_refl w : writes_checked w w.
Proof.
  split; [apply ids_kept_refl|]. exists []. by rewrite app_nil_r.
Qed.

Lemma writes_checked_trans w1 w2 w3 :
  writes_checked w1 w2 → writes_checked w2 w3 → writes_checked w1 w3.
Proof.
  intros [Hk1 (n1 & Hs1 & Hf1)] [Hk2 (n2 & Hs2 & Hf2)]. split.
  - by eapply ids_kept_trans.
  - exists (n1 ++ n2). rewrite Hs2, Hs1, app_assoc. split; [done|].
    apply Forall_app. split; [|done].
    eapply Forall_impl; [exact Hf1|]. intros s. by apply page_statement_kept.
Qed.

Lemma writes_checked_errors e w : writes_checked w (set_errors e w).
Proof.
  split; [apply ids_kept_refl|]. exists []. simpl. by rewrite app_nil_r.
Qed.

Lemma Forall_take_singleton {A} (Q : A → Prop) k x :
  Q x → Forall Q (take k [x]).
Proof. intros Hx. apply Forall_take. by constructor. Qed.

Lemma add_payment_checked conn name amt cur pm w :
  valid_input name amt cur pm →
  writes_checked w (add_payment conn name amt cur pm w).2.
Proof.
  intros Hv.
  pose proof (add_payment_sent conn name amt cur pm w) as Hs.
  destruct (add_payment_spec conn name amt cur pm w)
    as (b & w1 & Hrun & _ & _ & _ & Ht & _).
  rewrite Hrun in Hs |- *. cbn [snd] in *. split.
  - destruct Ht as [->|[_ ->]]; [apply ids_kept_refl|apply ids_kept_insert].
  - eexists. split; [exact Hs|]. apply Forall_take_singleton.
    right. right. left. by eexists _, _, _, _, _.
Qed.

Lemma get_payment_stats_checked conn w :
  writes_checked w (get_payment_stats conn w).2.
Proof.
  destruct (get_payment_stats_spec conn w)
    as (d & w1 & Hrun & Ht & _ & _ & _ & _ & k & Hs).
  rewrite Hrun. cbn [snd]. split.
  - rewrite Ht. apply ids_kept_refl.
  - eexists. split; [exact Hs|]. apply Forall_take, Forall_forall.
    intros s Hin. left. eauto.
Qed.

Lemma get_payments_checked conn w :
  writes_checked w (get_payments conn 50 w).2.
Proof.
  pose proof (get_payments_sent conn 50 w) as Hs.
  destruct (get_payments_frame conn 50 w) as (Ht & _). split.
  - rewrite Ht. apply ids_kept_refl.
  - eexists. split; [exact Hs|]. apply Forall_take_singleton.
    right. by left.
Qed.

Lemma update_payment_status_checked conn pid st w :
  member st statuses = true →
  (∃ p, p ∈ rows (table w) ∧ id p = pid) →
  writes_checked w (update_payment_status conn pid st w).2.
Proof.
  intros Hst Hrow.
  pose proof (update_payment_status_sent conn pid st w) as Hs.
  destruct (update_payment_status_spec conn pid st w)
    as (b & w1 & Hrun & _ & _ & _ & Ht & _).
  rewrite Hrun in Hs |- *. cbn [snd] in *.
  assert (ids_kept (table w) (table w1)) as Hk.
  { destruct Ht as [->|[_ ->]]; [apply ids_kept_refl|apply ids_kept_update]. }
  split; [done|].
  eexists. split; [exact Hs|]. apply Forall_take_singleton.
  right. right. right. exists st, (clock w (reads w)), pid.
  split; [done|]. split; [|done].
  destruct Hrow as (p & Hp & Hid). destruct (Hk p Hp) as (p' & Hp' & Hid').
  exists p'. split; [done|]. congruence.
Qed.

Lemma sidebar_sound conn i pg :
  let r := sidebar conn i pg in
  (∀ e, r.1 ≠ Crash e)
  ∧ writes_checked (world pg) (world r.2)
  ∧ slept r.2 = slept pg.
Proof.
  intros r. subst r.
  destruct (sidebar_run conn i pg) as (b & w1 & Hadd & ->).
  destruct (add_submitted i).
  2: { split; [done|]. split; [apply writes_checked_refl|done]. }
  destruct (form_accepts i) eqn:Hacc.
  2: { split; [done|]. split; [apply writes_checked_errors|done]. }
  pose proof (add_payment_checked conn _ _ _ _ (world pg)
                (form_accepts_valid i Hacc)) as Hw.
  rewrite Hadd in Hw. cbn [snd] in Hw.
  destruct b; cbn [fst snd world slept]; (split; [done|]); (split; [|done]).
  - done.
  - eapply writes_checked_trans; [exact Hw|apply writes_checked_errors].
Qed.

Lemma statistics_sound conn pg :
  let r := statistics conn pg in
  r.1 = Next tt
  ∧ writes_checked (world pg) (world r.2)
  ∧ slept r.2 = slept pg.
Proof.
  intros r. subst r.
  destruct (statistics_run conn pg) as (d & w1 & Hrun & ->).
  pose proof (get_payment_stats_checked conn (world pg)) as Hw.
  rewrite Hrun in Hw. split; [done|]. split; [exact Hw|done].
Qed.

Lemma update_payment_status_returns conn pid st w :
  ∃ b w1, update_payment_status conn pid st w = (Ok b, w1).
Proof.
  destruct (update_payment_status_spec conn pid st w)
    as (b & w1 & H & _).
  eauto.
Qed.

Lemma recent_payments_sound conn to_frame i pg :
  let r := recent_payments conn to_frame i pg in
  (∀ e, r.1 = Crash e →
        formatting_fails to_frame (table (world r.2)) e
        ∧ table (world r.2) = table (world pg))
  ∧ writes_checked (world pg) (world r.2)
  ∧ slept r.2 = slept pg.
Proof.
  intros r. subst r.
  destruct (recent_payments_run conn to_frame i pg)
    as (sel & w1 & Hget & Hsel & Ht & ->).
  pose proof (get_payments_checked conn (world pg)) as Hw.
  rewrite Hget in Hw. cbn [snd] in Hw.
  destruct sel as [|p0 sel'].
  { split; [done|]. split; [exact Hw|done]. }
  destruct (to_frame (payment_dict <$> p0 :: sel')) as [df|e] eqn:Hf.
  2: { cbn [fst snd world slept]. split; [|split; [exact Hw|done]].
       intros e' [= <-]. split; [|done].
       exists (p0 :: sel'). split; [done|]. split; [|done].
       intros p Hp. rewrite Ht. by apply Hsel. }
  cbv zeta. destruct (update_clicked i).
  2: { split; [done|]. split; [exact Hw|done]. }
  set (pid := id (default p0 (selectbox (p0 :: sel') (payment_choice i)))).
  set (st := default "" (selectbox statuses (status_choice i))).
  assert (writes_checked w1 (update_payment_status conn pid st w1).2) as Hu.
  { apply update_payment_status_checked; [by apply chosen_member|].
    destruct (selectbox_some (p0 :: sel') (payment_choice i)) as [p Hp];
      [done|].
    exists p. split.
    - rewrite Ht. apply Hsel. by eapply selectbox_elem.
    - unfold pid. by rewrite Hp. }
  destruct (update_payment_status_returns conn pid st w1)
    as (b & w2 & Hupd).
  rewrite Hupd in Hu |- *. cbn [snd] in Hu.
  destruct b; cbn [fst snd world slept]; (split; [done|]); (split; [|done]).
  - by eapply writes_checked_trans.
  - eapply writes_checked_trans; [exact Hw|].
    eapply writes_checked_trans; [exact Hu|apply writes_checked_errors].
Qed.

Lemma main_sound env connect to_frame i pg :
  let r := main env connect to_frame i pg in
  (∀ e, r.1 = Crash e → formatting_fails to_frame (table (world r.2)) e)
  ∧ writes_checked (world pg) (world r.2).
Proof.
  intros r. subst r. rewrite main_run. cbv zeta.
  destruct (connect (args_of env)) as [c|e].
  2: { split; [done|]. cbn [snd world].
       eapply writes_checked_trans; apply writes_checked_errors. }
  set (pg0 := mkPage (world pg) (shown pg ++ page_top) (slept pg)).
  destruct (sidebar_sound (Some c) i pg0) as (Hc1 & Hw1 & _).
  destruct (sidebar (Some c) i pg0) as [[[auto interval]| |e] pg1];
    [|by split|by destruct (Hc1 e)].
  destruct (statistics_sound (Some c) pg1) as (Hn2 & Hw2 & _).
  destruct (statistics (Some c) pg1) as [[[]| |e] pg2]; [|done..].
  destruct (recent_payments_sound (Some c) to_frame i pg2)
    as (Hc3 & Hw3 & _).
  cbn [fst snd world] in *.
  assert (writes_checked (world pg) (world pg2)) as Hw12
    by (by eapply writes_checked_trans).
  destruct (recent_payments (Some c) to_frame i pg2) as [[[]| |e] pg3];
    cbn [fst snd world] in *.
  - destruct auto; cbn [fst snd world]; (split; [done|]);
      by eapply writes_checked_trans.
  - split; [done|]. by eapply writes_checked_trans.
  - split; [|by eapply writes_checked_trans].
    intros e' [= <-]. by destruct (Hc3 e eq_refl).
Qed.

(** X12: a run of [main] can only die in the pandas steps.  Whatever the
    environment, the driver, the widgets and the database do, the run
    ends normally, or in a rerun, or with the exception that the pandas
    steps before the table of recent payments raised on a listing that is
    not empty and consists of rows of the table.  No exception of the
    driver or of the four functions ends the run, and with a pandas that
    does not raise nothing does. *)
Theorem main_dies_only_in_pandas env connect to_frame i pg :
  let r := main env connect to_frame i pg in
  r.1 = Next tt ∨ r.1 = Rerun
  ∨ ∃ e, r.1 = Crash e ∧ formatting_fails to_frame (table (world r.2)) e.
Proof.
  intros r. destruct (main_sound env connect to_frame i pg) as (Hc & _).
  fold r in Hc. destruct r.1 as [[]| |e]; [by left|right; by left|].
  right. right. exists e. split; [done|]. by apply Hc.
Qed.

(** X13: the page checks what it writes.  Every statement a run of
    [main] sends is one of the three statistics queries, the listing with
    limit 50, an [INSERT] whose customer name is not empty, whose amount
    is positive and whose currency and payment method are among the
    offered ones, or an [UPDATE] to one of the four statuses of an id
    that a row of the table carries. *)
Theorem main_submits_checked_statements env connect to_frame i pg :
  let w' := world (main env connect to_frame i pg).2 in
  ∃ new,
    sent w' = sent (world pg) ++ new
    ∧ Forall (page_statement (table w')) new.
Proof.
  destruct (main_sound env connect to_frame i pg) as (_ & _ & Hnew). exact Hnew.
Qed.

(** X14: a successful submission restarts the run at once.  When the
    form is submitted, passes the page's check and [add_payment] returns
    true, [main] shows the success notice and asks for a rerun: the run
    has sent the one [INSERT] only, so it has queried no statistics and
    no listing, and it has not slept. *)
Theorem main_reruns_after_adding env connect to_frame i pg c w1 :
  connect (args_of env) = Ok c →
  add_submitted i = true →
  form_accepts i = true →
  add_payment (Some c) (name_text i) (amount_number i)
    (default "" (selectbox currencies (currency_choice i)))
    (default "" (selectbox payment_methods (method_choice i)))
    (world pg) = (Ok true, w1) →
  main env connect to_frame i pg
  = (Rerun,
     mkPage w1
       (shown pg ++ page_top ++ sidebar_elements
        ++ [Success "Payment added successfully!"])
       (slept pg))
  ∧ sent w1
    = sent (world pg)
      ++ [(query_insert,
           insert_params (name_text i) (amount_number i)
             (default "" (selectbox currencies (currency_choice i)))
             (default "" (selectbox payment_methods (method_choice i)))
             (clock (world pg) (reads (world pg))))].
Proof.
  intros Hconn Hsub Hacc Hadd. split.
  - rewrite main_run. cbv zeta. rewrite Hconn.
    destruct (sidebar_run (Some c) i
                (mkPage (world pg) (shown pg ++ page_top) (slept pg)))
      as (b & w1' & Hadd' & ->).
    cbn [world shown slept] in *. rewrite Hadd in Hadd'.
    injection Hadd' as <- <-. rewrite Hsub, Hacc.
    by rewrite <- !app_assoc.
  - destruct (add_payment_spec (Some c) (name_text i) (amount_number i)
                (default "" (selectbox currencies (currency_choice i)))
                (default "" (selectbox payment_methods (method_choice i)))
                (world pg)) as (b & w1' & Hrun & _ & _ & _ & _ & _ & Hins).
    rewrite Hadd in Hrun. injection Hrun as <- <-.
    by destruct (Hins eq_refl) as (_ & _ & ?).
Qed.

Lemma main_reruns_after_adding_witness :
  let connect : connect_args → outcome connection := λ _, Ok Connected in
  let pg := mkPage still_world [] [] in
  let w1 := (add_payment (Some Connected) "Alice" alice_amount "USD"
               "credit_card" still_world).2 in
  main ∅ connect as_listed alice_form pg
  = (Rerun,
     mkPage w1
       (shown pg ++ page_top ++ sidebar_elements
        ++ [Success "Payment added successfully!"])
       (slept pg))
  ∧ sent w1
    = sent (world pg)
      ++ [(query_insert,
           insert_params "Alice" alice_amount "USD" "credit_card"
             (clock (world pg) (reads (world pg))))].
Proof.
  intros connect pg w1.
  apply (main_reruns_after_adding ∅ connect as_listed alice_form pg Connected
           w1).
  - reflexivity.
  - reflexivity.
  - reflexivity.
  - vm_compute. reflexivity.
Defined.



Lemma count_where_absent s t :
  s ∉ status <$> rows t → count_where (has_status s) t = 0.
Proof.
  intros Hs. unfold count_where.
  destruct (List.filter (has_status s) (rows t)) as [|p l] eqn:E; [done|].
  assert (In p (List.filter (has_status s) (rows t))) as Hin
    by (rewrite E; by left).
  apply filter_In in Hin as [Hp Hst]. destruct Hs.
  unfold has_status in Hst. apply String.eqb_eq in Hst as <-.
  apply list_elem_of_fmap_2. by apply list_elem_of_In.
Qed.

Lemma histogram_empty_iff t :
  py_dict (group_by_status t) = ∅ ↔ rows t = [].
Proof.
  split.
  - intros He. destruct (rows t) as [|p l] eqn:E; [done|].
    pose proof (status_distribution_lookup t (status p)) as Hl.
    rewrite He, lookup_empty, bool_decide_eq_true_2 in Hl; [done|].
    rewrite E. left.
  - intros E. unfold group_by_status. by rewrite E.
Qed.

Lemma pending_of_stats t now now' :
  pending_of (stats_of t now now') = count_where (has_status "pending") t.
Proof.
  destruct (stats_of_lookups t now now') as (_ & _ & Hs & _).
  unfold pending_of, dict_get. rewrite Hs. simpl.
  rewrite status_distribution_lookup. case_bool_decide as Hin; [done|].
  simpl. by rewrite count_where_absent.
Qed.

(** X16: the statistics block never stops the run and leaves the table
    alone.  When the statistics are unavailable (no connection, or a
    driver call fails) all four metrics read 0 and no chart is drawn.
    Otherwise the "Pending Payments" metric is the number of rows whose
    status is pending, and the status chart, which is the histogram, is
    drawn exactly when the table has rows. *)
Theorem statistics_block conn pg :
  let t := table (world pg) in
  ∃ w1 panel,
    statistics conn pg
    = (Next tt, mkPage w1 (shown pg ++ panel) (slept pg))
    ∧ table w1 = t
    ∧ (conn = None ∨ calls_ok 8 (faults (world pg)) = false →
       panel = [Metric "Today's Payments" (VInt 0);
                Metric "Today's Total" (VInt 0);
                Metric "Recent Activity (1h)" (VInt 0);
                Metric "Pending Payments" (VInt 0);
                Divider; Divider])
    ∧ (conn ≠ None → calls_ok 8 (faults (world pg)) = true →
       ∃ today total recent,
         panel
         = [Metric "Today's Payments" today;
            Metric "Today's Total" total;
            Metric "Recent Activity (1h)" recent;
            Metric "Pending Payments"
              (VInt (count_where (has_status "pending") t));
            Divider]
           ++ (if bool_decide (rows t = []) then []
               else [Subheader "Payment Status Distribution";
                     BarChart (py_dict (group_by_status t))])
           ++ [Divider]).
Proof.
  intros t. subst t.
  destruct (statistics_run conn pg) as (d & w1 & Hrun & Hstat).
  destruct (get_payment_stats_returns conn (world pg))
    as (d' & w1' & Hrun' & Ht & Hd).
  rewrite Hrun in Hrun'. injection Hrun' as <- <-.
  exists w1, (stats_panel d). split; [done|]. split; [done|].
  destruct Hd as [[-> Hfail]|(Hc & Hk & ->)].
  - split; [|intros Hc Hk; destruct Hfail; congruence].
    intros _. unfold stats_panel, pending_of, chart_of, dict_get.
    by rewrite !lookup_empty.
  - split; [intros [?|?]; congruence|]. intros _ _.
    destruct (stats_of_lookups (table (world pg))
                (clock (world pg) (reads (world pg)))
                (clock (world pg) (S (reads (world pg)))))
      as (_ & _ & Hs & _).
    eexists _, _, _. unfold stats_panel. rewrite pending_of_stats.
    f_equal. f_equal. unfold chart_of. rewrite Hs.
    destruct (decide (rows (table (world pg)) = [])) as [E|E].
    + rewrite (bool_decide_eq_true_2 _ E).
      by rewrite bool_decide_eq_true_2 by (by apply histogram_empty_iff).
    + rewrite (bool_decide_eq_false_2 _ E).
      rewrite bool_decide_eq_false_2; [done|].
      by intros ?%histogram_empty_iff.
Qed.

Lemma guarded_errors {A} conn (body : M A) prefix fallback w :
  errors (body w).2 = errors w →
  ∃ v w',
    guarded conn body prefix fallback w = (Ok v, w')
    ∧ (conn ≠ None ∧ body w = (Ok v, w') ∧ errors w' = errors w
       ∨ v = fallback
         ∧ (conn = None ∧ w' = w
            ∨ conn ≠ None
              ∧ ∃ e, errors w' = errors w ++ [prefix +:+ e])).
Proof.
  intros He. unfold guarded. destruct conn as [c|].
  2: { exists fallback, w. split; [done|]. right. split; [done|]. by left. }
  rewrite try_except_run. destruct (body w) as [[a|e] w1]; cbn [snd] in He.
  - exists a, w1. split; [done|]. by left.
  - eexists _, _. split; [done|]. right. split; [done|]. right.
    split; [done|]. exists e. cbn [errors set_errors]. by rewrite He.
Qed.

(** X17: no failure goes unreported and no message is lost.  Each of the
    four functions leaves the messages already on the page in place and
    adds at most one.  [add_payment] and [update_payment_status] return
    true without a message; they return false either silently, when there
    is no connection (and then nothing at all has changed), or together
    with one message that carries the function's own prefix.  The same
    holds for the empty statistics record, and a listing that comes with a
    message is empty. *)
Theorem failures_are_reported conn limit name amt cur pm pid st w :
  (∃ ps w',
     get_payments conn limit w = (Ok ps, w')
     ∧ (errors w' = errors w
        ∨ ps = [] ∧ conn ≠ None
          ∧ ∃ e, errors w'
                 = errors w ++ ["Error fetching payments: " +:+ e]))
  ∧ (∃ b w',
       add_payment conn name amt cur pm w = (Ok b, w')
       ∧ if b then errors w' = errors w
         else conn = None ∧ w' = w
              ∨ conn ≠ None
                ∧ ∃ e, errors w'
                       = errors w ++ ["Error adding payment: " +:+ e])
  ∧ (∃ b w',
       update_payment_status conn pid st w = (Ok b, w')
       ∧ if b then errors w' = errors w
         else conn = None ∧ w' = w
              ∨ conn ≠ None
                ∧ ∃ e, errors w'
                       = errors w ++ ["Error updating payment: " +:+ e])
  ∧ (∃ d w',
       get_payment_stats conn w = (Ok d, w')
       ∧ if bool_decide (d = ∅)
         then conn = None ∧ w' = w
              ∨ conn ≠ None
                ∧ ∃ e, errors w'
                       = errors w ++ ["Error fetching stats: " +:+ e]
         else errors w' = errors w).
Proof.
  split; [|split; [|split]].
  - destruct (guarded_errors conn (get_payments_body limit)
                "Error fetching payments: " [] w) as (ps & w' & Hrun & H).
    { pose proof (get_payments_body_spec limit w) as H. cbv zeta in H.
      destruct (get_payments_body limit w) as [o w1].
      by destruct H as (_ & _ & _ & ? & _). }
    exists ps, w'. split; [exact Hrun|].
    destruct H as [(_ & _ & ?)|[-> [[_ ->]|[? ?]]]]; auto.
  - destruct (guarded_errors conn (add_payment_body name amt cur pm)
                "Error adding payment: " false w) as (b & w' & Hrun & H).
    { pose proof (add_payment_body_spec name amt cur pm w) as H.
      cbv zeta in H.
      destruct (add_payment_body name amt cur pm w) as [o w1].
      by destruct H as (_ & ? & _). }
    exists b, w'. split; [exact Hrun|].
    destruct H as [(_ & Hb & ?)|[-> ?]]; [|done].
    pose proof (add_payment_body_spec name amt cur pm w) as H'.
    cbv zeta in H'. rewrite Hb in H'. by destruct H' as (_ & _ & _ & _ & _ & _ & -> & _).
  - destruct (guarded_errors conn (update_payment_status_body pid st)
                "Error updating payment: " false w) as (b & w' & Hrun & H).
    { pose proof (update_payment_status_body_spec pid st w) as H.
      cbv zeta in H.
      destruct (update_payment_status_body pid st w) as [o w1].
      by destruct H as (_ & ? & _). }
    exists b, w'. split; [exact Hrun|].
    destruct H as [(_ & Hb & ?)|[-> ?]]; [|done].
    pose proof (update_payment_status_body_spec pid st w) as H'.
    cbv zeta in H'. rewrite Hb in H'. by destruct H' as (_ & _ & _ & _ & _ & _ & -> & _).
  - destruct (guarded_errors conn get_payment_stats_body
                "Error fetching stats: " ∅ w) as (d & w' & Hrun & H).
    { pose proof (get_payment_stats_body_spec w) as H. cbv zeta in H.
      destruct (get_payment_stats_body w) as [o w1].
      by destruct H as (_ & _ & ? & _). }
    exists d, w'. split; [exact Hrun|].
    destruct H as [(_ & Hb & ?)|[-> ?]].
    + pose proof (get_payment_stats_body_spec w) as H'.
      cbv zeta in H'. rewrite Hb in H'. destruct H' as (_ & _ & _ & _ & _ & -> & _).
      rewrite bool_decide_eq_false_2; [done|]. apply stats_of_nonempty.
    + by rewrite bool_decide_eq_true_2.
Qed.

Lemma quiet_refl w : quiet w w.
Proof.
  split; [done|]. split; [done|]. exists []. by rewrite app_nil_r.
Qed.

Lemma quiet_trans w1 w2 w3 : quiet w1 w2 → quiet w2 w3 → quiet w1 w3.
Proof.
  intros (He1 & Hl1 & n1 & Hs1 & Hn1) (He2 & Hl2 & n2 & Hs2 & Hn2).
  split; [by etrans|]. split; [congruence|].
  exists (n1 ++ n2). rewrite Hs2, Hs1, <- app_assoc. split; [done|].
  by apply Forall_app.
Qed.

Lemma quiet_error msg w : quiet w (set_errors (errors w ++ [msg]) w).
Proof.
  split; [by apply prefix_app_r|]. split; [done|].
  exists []. by rewrite app_nil_r.
Qed.

Lemma get_payment_stats_quiet conn w :
  quiet w (get_payment_stats conn w).2.
Proof.
  destruct (guarded_errors conn get_payment_stats_body
              "Error fetching stats: " ∅ w) as (d & w' & Hrun & He).
  { pose proof (get_payment_stats_body_spec w) as H. cbv zeta in H.
    destruct (get_payment_stats_body w) as [o w1].
    by destruct H as (_ & _ & ? & _). }
  destruct (get_payment_stats_spec conn w)
    as (d' & w'' & Hrun' & Ht & _ & _ & _ & _ & k & Hs).
  change (guarded conn get_payment_stats_body "Error fetching stats: " ∅)
    with (get_payment_stats conn) in Hrun.
  rewrite Hrun in Hrun'. injection Hrun' as <- <-.
  rewrite Hrun. cbn [snd]. split; [|split; [by rewrite Ht|]].
  - destruct He as [(_ & _ & ->)|[_ [[_ ->]|[_ [e ->]]]]]; try done.
    by apply prefix_app_r.
  - eexists. split; [exact Hs|]. apply Forall_take.
    unfold stats_queries. by repeat constructor.
Qed.

Lemma get_payments_quiet conn limit w :
  quiet w (get_payments conn limit w).2.
Proof.
  destruct (guarded_errors conn (get_payments_body limit)
              "Error fetching payments: " [] w) as (d & w' & Hrun & He).
  { pose proof (get_payments_body_spec limit w) as H. cbv zeta in H.
    destruct (get_payments_body limit w) as [o w1].
    by destruct H as (_ & _ & _ & ? & _). }
  change (guarded conn (get_payments_body limit)
            "Error fetching payments: " [])
    with (get_payments conn limit) in Hrun.
  pose proof (get_payments_frame conn limit w) as (Ht & _).
  pose proof (get_payments_sent conn limit w) as Hs.
  rewrite Hrun in Ht, Hs |- *. cbn [snd] in *.
  split; [|split; [by rewrite Ht|]].
  - destruct He as [(_ & _ & ->)|[_ [[_ ->]|[_ [e ->]]]]]; try done.
    by apply prefix_app_r.
  - eexists. split; [exact Hs|]. apply Forall_take.
    by repeat constructor.
Qed.

Lemma update_payment_status_quiet conn pid st w :
  quiet w (update_payment_status conn pid st w).2.
Proof.
  destruct (guarded_errors conn (update_payment_status_body pid st)
              "Error updating payment: " false w) as (d & w' & Hrun & He).
  { pose proof (update_payment_status_body_spec pid st w) as H.
    cbv zeta in H.
    destruct (update_payment_status_body pid st w) as [o w1].
    by destruct H as (_ & ? & _). }
  change (guarded conn (update_payment_status_body pid st)
            "Error updating payment: " false)
    with (update_payment_status conn pid st) in Hrun.
  destruct (update_payment_status_spec conn pid st w)
    as (b' & w'' & Hrun' & _ & _ & _ & Ht & _).
  rewrite Hrun in Hrun'. injection Hrun' as <- <-.
  pose proof (update_payment_status_sent conn pid st w) as Hs.
  rewrite Hrun in Hs |- *. cbn [snd] in *.
  split; [|split].
  - destruct He as [(_ & _ & ->)|[_ [[_ ->]|[_ [e ->]]]]]; try done.
    by apply prefix_app_r.
  - destruct Ht as [->|[_ ->]]; [done|].
    by rewrite update_rows_rows, length_fmap.
  - eexists. split; [exact Hs|]. apply Forall_take.
    by repeat constructor.
Qed.

Lemma statistics_quiet conn pg :
  quiet (world pg) (world (statistics conn pg).2).
Proof.
  destruct (statistics_run conn pg) as (d & w1 & Hrun & ->).
  pose proof (get_payment_stats_quiet conn (world pg)) as H.
  by rewrite Hrun in H.
Qed.

Lemma recent_payments_quiet conn to_frame i pg :
  quiet (world pg) (world (recent_payments conn to_frame i pg).2).
Proof.
  destruct (recent_payments_run conn to_frame i pg)
    as (sel & w1 & Hget & _ & _ & ->).
  pose proof (get_payments_quiet conn 50 (world pg)) as Hq.
  rewrite Hget in Hq. cbn [snd] in Hq.
  destruct sel as [|p0 sel']; [done|].
  destruct (to_frame (payment_dict <$> p0 :: sel')) as [df|e]; [|done].
  cbv zeta. destruct (update_clicked i); [|done].
  set (pid := id _). set (st := default _ _).
  pose proof (update_payment_status_quiet conn pid st w1) as Hu.
  destruct (update_payment_status conn pid st w1) as [[[]|e] w2];
    cbn [snd world] in *.
  - by eapply quiet_trans.
  - eapply quiet_trans; [exact Hq|].
    eapply quiet_trans; [exact Hu|]. apply quiet_error.
  - by eapply quiet_trans.
Qed.

(** X18: an incomplete form adds nothing.  When the form is submitted
    with an empty customer name or an amount that is not positive, [main]
    reports "Please fill in all required fields", submits no [INSERT] in
    the whole run, and the table has as many rows afterwards as before. *)
Theorem main_rejects_incomplete_form env connect to_frame i pg c :
  connect (args_of env) = Ok c →
  add_submitted i = true →
  name_text i = "" ∨ (amount_number i ≤ 0)%Qc →
  let r := main env connect to_frame i pg in
  "Please fill in all required fields" ∈ errors (world r.2)
  ∧ length (rows (table (world r.2))) = length (rows (table (world pg)))
  ∧ ∃ new, sent (world r.2) = sent (world pg) ++ new
           ∧ Forall (λ s, s.1 ≠ query_insert) new.
Proof.
  intros Hc Hsub Hbad r.
  assert (form_accepts i = false) as Hform.
  { unfold form_accepts. destruct Hbad as [->|Hle]; [done|].
    rewrite bool_decide_eq_false_2, andb_false_r; [done|].
    by apply Qcle_not_lt. }
  set (w0 := set_errors
               (errors (world pg) ++ ["Please fill in all required fields"])
               (world pg)).
  enough ("Please fill in all required fields" ∈ errors w0
          ∧ quiet w0 (world r.2)) as [Hin (He & Hl & new & Hs & Hn)].
  { split; [|split; [exact Hl|by exists new]].
    destruct He as [k ->]. apply elem_of_app. by left. }
  split; [apply elem_of_app; right; by left|].
  subst r. rewrite main_run, Hc. cbv zeta.
  destruct (sidebar_run (Some c) i
              (mkPage (world pg) (shown pg ++ page_top) (slept pg)))
    as (b & w1 & _ & ->).
  rewrite Hsub, Hform. cbn [world shown slept]. fold w0.
  set (pg1 := mkPage w0 _ _).
  pose proof (statistics_quiet (Some c) pg1) as H1.
  destruct (statistics_run (Some c) pg1) as (d & w2 & _ & Hst).
  rewrite Hst in H1 |- *. cbn [snd world] in H1.
  set (pg2 := mkPage w2 _ _).
  pose proof (recent_payments_quiet (Some c) to_frame i pg2) as H2.
  change (world pg2) with w2 in H2.
  destruct (recent_payments (Some c) to_frame i pg2) as [[[]| |e] pg3];
    cbn [snd] in *; try (by eapply quiet_trans).
  destruct (auto_refresh_checked i); cbn [snd world];
    by eapply quiet_trans.
Qed.

Lemma main_rejects_incomplete_form_witness :
  let pg := mkPage behind_world [] [] in
  let r := main ∅ (λ _, Ok Connected) as_listed blank_form pg in
  "Please fill in all required fields" ∈ errors (world r.2)
  ∧ length (rows (table (world r.2))) = length (rows (table (world pg)))
  ∧ ∃ new, sent (world r.2) = sent (world pg) ++ new
           ∧ Forall (λ s, s.1 ≠ query_insert) new.
Proof.
  intros pg.
  apply (main_rejects_incomplete_form ∅ (λ _, Ok Connected) as_listed
           blank_form pg
           Connected).
  - reflexivity.
  - reflexivity.
  - left. reflexivity.
Defined.

(** X19: a listing that fails looks like an empty table.  When the table
    has no rows, and equally when one of the driver calls of the listing
    fails while the table has rows, the block of recent payments shows
    "No payments found" and offers no status update: whatever the state
    of the update button, no [UPDATE] is submitted, the table is kept and
    the run goes on. *)
Theorem failed_listing_shows_no_payments c to_frame i pg :
  rows (table (world pg)) = [] ∨ calls_ok 4 (faults (world pg)) = false →
  ∃ w1 k,
    recent_payments (Some c) to_frame i pg
    = (Next tt,
       mkPage w1
         (shown pg
          ++ [Subheader "Recent Payments";
              Info "No payments found. Add some payments to get started!"])
         (slept pg))
    ∧ table w1 = table (world pg)
    ∧ sent w1 = sent (world pg) ++ take k [(query_select, [VInt 50])].
Proof.
  intros Hempty.
  destruct (recent_payments_run (Some c) to_frame i pg)
    as (sel & w1 & Hget & Hsel & Ht & Hrun).
  pose proof (get_payments_sent (Some c) 50 (world pg)) as Hs.
  rewrite Hget in Hs. cbn [snd] in Hs.
  assert (sel = []) as ->.
  { destruct Hempty as [He|Hf].
    - destruct sel as [|p sel']; [done|].
      specialize (Hsel p ltac:(left)). rewrite He in Hsel.
      by apply elem_of_nil in Hsel.
    - destruct (guarded_run (Some c) (get_payments_body 50)
                  "Error fetching payments: " [] (world pg))
        as (v & w' & Hg & _ & _ & Hv).
      change (guarded (Some c) (get_payments_body 50)
                "Error fetching payments: " [])
        with (get_payments (Some c) 50) in Hg.
      rewrite Hget in Hg. injection Hg as <- <-.
      destruct Hv as [Hv|Hb]; [by apply fmap_nil_inv in Hv|].
      pose proof (get_payments_body_spec 50 (world pg)) as H.
      cbv zeta in H. rewrite Hb in H.
      destruct H as (_ & _ & _ & _ & _ & _ & _ & Hk & _). congruence. }
  exists w1, (submitted (Some c) (world pg)). by rewrite Hrun.
Qed.

Lemma failed_listing_shows_no_payments_witness :
  ∃ w1 k,
    recent_payments (Some Connected) as_listed alice_form
      (mkPage still_world [] [])
    = (Next tt,
       mkPage w1
         ([] ++ [Subheader "Recent Payments";
                 Info "No payments found. Add some payments to get started!"])
         [])
    ∧ table w1 = table still_world
    ∧ sent w1 = sent still_world ++ take k [(query_select, [VInt 50])].
Proof.
  apply (failed_listing_shows_no_payments Connected as_listed alice_form
           (mkPage still_world [] [])).
  left. reflexivity.
Defined.
